(** * vineta-main: the theme sync tool (index.js) and the theme listing tool

    A shallow embedding of the session-management and sync-upload workflow:
    the session cache (cookies.json), session derivation, [ensureAuth],
    the packager ([zipTheme]), the remote theme client, the orchestrator
    ([uploadTheme]) and the debounced watcher.

    JavaScript strings are sequences of UTF-16 code units, JSON.parse'd data
    is a [JSON] value, and a thrown exception is an explicit result that
    keeps the state reached when it was thrown. *)

From Stdlib Require Import List String Ascii Bool Arith NArith ZArith Lia.
Import ListNotations.

Set Warnings "-register-all".

(* ================================================================= *)
(** ** JavaScript strings *)

Definition code_unit := N.
Definition jsstring := list code_unit.

(** An ASCII literal of the source, as code units. *)
Definition lit (s : string) : jsstring :=
  map N_of_ascii (list_ascii_of_string s).

Fixpoint str_eqb (a b : jsstring) : bool :=
  match a, b with
  | [], [] => true
  | x :: a', y :: b' => N.eqb x y && str_eqb a' b'
  | _, _ => false
  end.

(** [Array.prototype.join] on strings. *)
Fixpoint join (sep : jsstring) (parts : list jsstring) : jsstring :=
  match parts with
  | [] => []
  | [p] => p
  | p :: rest => p ++ sep ++ join sep rest
  end.

Fixpoint starts_with (p s : jsstring) : bool :=
  match p, s with
  | [], _ => true
  | x :: p', y :: s' => N.eqb x y && starts_with p' s'
  | _ :: _, [] => false
  end.

(** [String.prototype.includes]: [p] occurs in [s] as a run of code units. *)
Fixpoint str_includes (s p : jsstring) : bool :=
  starts_with p s ||
  match s with
  | [] => false
  | _ :: s' => str_includes s' p
  end.

Definition PERCENT : code_unit := 37%N.

(* ================================================================= *)
(** ** decodeURIComponent (ECMA-262, Decode with an empty preserved set) *)

Module URI.

Local Open Scope N_scope.

Definition hex_digit (c : code_unit) : option N :=
  if (48 <=? c) && (c <=? 57) then Some (c - 48)
  else if (65 <=? c) && (c <=? 70) then Some (c - 55)
  else if (97 <=? c) && (c <=? 102) then Some (c - 87)
  else None.

(** An escape [%XY] at the head of [s]: its octet and what follows it. *)
Definition percent_octet (s : jsstring) : option (N * jsstring) :=
  match s with
  | c :: h :: l :: rest =>
      if c =? PERCENT then
        match hex_digit h, hex_digit l with
        | Some a, Some b => Some (16 * a + b, rest)
        | _, _ => None
        end
      else None
  | _ => None
  end.

(** Number of leading 1 bits of an octet (5 stands for "more than 4"). *)
Definition leading_ones (B : N) : nat :=
  if B <? 128 then 0%nat
  else if B <? 192 then 1%nat
  else if B <? 224 then 2%nat
  else if B <? 240 then 3%nat
  else if B <? 248 then 4%nat
  else 5%nat.

(** The [n] escapes that must follow the first octet of a UTF-8 sequence. *)
Fixpoint continuation (n : nat) (s : jsstring) : option (list N * jsstring) :=
  match n with
  | O => Some ([], s)
  | S n' =>
      match percent_octet s with
      | None => None
      | Some (b, rest) =>
          match continuation n' rest with
          | None => None
          | Some (bs, rest') => Some (b :: bs, rest')
          end
      end
  end.

Definition is_cont (b : N) : bool := (128 <=? b) && (b <? 192).

(** The code point of a well-formed UTF-8 sequence of 2 to 4 octets:
    continuation octets are 10xxxxxx, the encoding is the shortest one,
    surrogates and values above U+10FFFF are refused. *)
Definition utf8_code_point (octets : list N) : option N :=
  match octets with
  | [b0; b1] =>
      let V := N.land b0 31 * 64 + N.land b1 63 in
      if is_cont b1 && (128 <=? V) then Some V else None
  | [b0; b1; b2] =>
      let V := N.land b0 15 * 4096 + N.land b1 63 * 64 + N.land b2 63 in
      if is_cont b1 && is_cont b2 && (2048 <=? V)
         && negb ((55296 <=? V) && (V <=? 57343))
      then Some V else None
  | [b0; b1; b2; b3] =>
      let V := N.land b0 7 * 262144 + N.land b1 63 * 4096
               + N.land b2 63 * 64 + N.land b3 63 in
      if is_cont b1 && is_cont b2 && is_cont b3
         && (65536 <=? V) && (V <=? 1114111)
      then Some V else None
  | _ => None
  end.

Definition UTF16EncodeCodePoint (V : N) : jsstring :=
  if V <? 65536 then [V]
  else [55296 + (V - 65536) / 1024; 56320 + (V - 65536) mod 1024].

(** [None] is the thrown URIError (or exhausted fuel, which
    [decodeURIComponent] below never lets happen). *)
Fixpoint Decode (fuel : nat) (s : jsstring) : option jsstring :=
  match fuel with
  | O => None
  | S fuel' =>
      match s with
      | [] => Some []
      | c :: rest =>
          if c =? PERCENT then
            match percent_octet s with
            | None => None
            | Some (B, rest1) =>
                let n := leading_ones B in
                if Nat.eqb n 0 then option_map (cons B) (Decode fuel' rest1)
                else if Nat.eqb n 1 || Nat.ltb 4 n then None
                else
                  match continuation (n - 1) rest1 with
                  | None => None
                  | Some (bs, rest2) =>
                      match utf8_code_point (B :: bs) with
                      | None => None
                      | Some V =>
                          option_map (app (UTF16EncodeCodePoint V))
                                     (Decode fuel' rest2)
                      end
                  end
            end
          else option_map (cons c) (Decode fuel' rest)
      end
  end.

Definition decodeURIComponent (s : jsstring) : option jsstring :=
  Decode (S (List.length s)) s.

End URI.

(* ================================================================= *)
(** ** JavaScript values obtained from JSON *)

(** What JSON.parse, axios and puppeteer hand to the program.  A number is
    carried as the string that ToString gives for it (so 0 and -0 are both
    the rendering of zero). *)
Inductive JSON : Type :=
| JNull
| JBool (b : bool)
| JNum (shown : jsstring)
| JStr (s : jsstring)
| JArr (items : list JSON)
| JObj (fields : list (jsstring * JSON)).

(** A value of the program; [None] is [undefined]. *)
Definition Value := option JSON.

Inductive Exn : Type :=
| Error (message : jsstring)            (* new Error(message) *)
| TypeError
| URIError
| SyntaxError                           (* JSON.parse *)
| FsError (code : jsstring)             (* fs errors, err.code *)
| AxiosError (response : option (Z * JSON))   (* err.response: status, data *)
| ExecError                             (* the archiver exited non-zero *)
| BrowserError.                         (* puppeteer: launch, timeout *)

(** A pure computation: its value, or the exception it throws. *)
Inductive Try (A : Type) : Type :=
| Returns (a : A)
| Throws (e : Exn).
Arguments Returns {A} a.
Arguments Throws {A} e.

Definition bindT {A B} (r : Try A) (k : A -> Try B) : Try B :=
  match r with
  | Returns a => k a
  | Throws e => Throws e
  end.

Notation "x <~ r ; k" := (bindT r (fun x => k))
  (at level 61, r at next level, right associativity).

(** JavaScript truthiness. *)
Definition truthy (v : Value) : bool :=
  match v with
  | None => false
  | Some JNull => false
  | Some (JBool b) => b
  | Some (JNum shown) => negb (str_eqb shown (lit "0"))
  | Some (JStr s) => negb (str_eqb s [])
  | Some (JArr _) => true
  | Some (JObj _) => true
  end.

(** The own property [k] of a parsed object. *)
Fixpoint own (k : jsstring) (fields : list (jsstring * JSON)) : Value :=
  match fields with
  | [] => None
  | (k', v) :: rest => if str_eqb k' k then Some v else own k rest
  end.

(** [v.k] for the property names the program reads ([name], [value], [id],
    [status], [created_at], [message], [data]), none of which is defined on
    a built-in prototype: reading from [null] or [undefined] throws, a
    primitive or an array has no such property. *)
Definition Get (v : Value) (k : jsstring) : Try Value :=
  match v with
  | None => Throws TypeError
  | Some JNull => Throws TypeError
  | Some (JObj fields) => Returns (own k fields)
  | Some _ => Returns None
  end.

(** [v?.k] *)
Definition GetOpt (v : Value) (k : jsstring) : Try Value :=
  match v with
  | None => Returns None
  | Some JNull => Returns None
  | _ => Get v k
  end.

(** [v === s] for a string [s]. *)
Definition is_string (v : Value) (s : jsstring) : bool :=
  match v with
  | Some (JStr s') => str_eqb s' s
  | _ => false
  end.

(** ToString of a parsed value.  An array joins its elements with a comma
    (null elements give the empty string); a plain object gives
    [[object Object]] unless it has an own [toString], which is then not
    callable and leaves no primitive to convert to. *)
Fixpoint ToString (v : JSON) : Try jsstring :=
  match v with
  | JNull => Returns (lit "null")
  | JBool true => Returns (lit "true")
  | JBool false => Returns (lit "false")
  | JNum shown => Returns shown
  | JStr s => Returns s
  | JArr items =>
      (fix elements (l : list JSON) : Try jsstring :=
         match l with
         | [] => Returns []
         | x :: rest =>
             s <~ match x with JNull => Returns [] | _ => ToString x end;
             match rest with
             | [] => Returns s
             | _ :: _ => t <~ elements rest; Returns (s ++ lit "," ++ t)
             end
         end) items
  | JObj fields =>
      match own (lit "toString") fields with
      | Some _ => Throws TypeError
      | None => Returns (lit "[object Object]")
      end
  end.

(** ToString of a value in a template literal or passed to a built-in. *)
Definition ToStringV (v : Value) : Try jsstring :=
  match v with
  | None => Returns (lit "undefined")
  | Some j => ToString j
  end.

(** [Array.prototype.map] with a callback that may throw. *)
Fixpoint Array_map {A B} (f : A -> Try B) (l : list A) : Try (list B) :=
  match l with
  | [] => Returns []
  | x :: rest => y <~ f x; ys <~ Array_map f rest; Returns (y :: ys)
  end.

(** [Array.prototype.find] with a callback that may throw. *)
Fixpoint Array_find (p : JSON -> Try bool) (l : list JSON) : Try Value :=
  match l with
  | [] => Returns None
  | x :: rest => b <~ p x; if b then Returns (Some x) else Array_find p rest
  end.

(** [Array.prototype.forEach] with a callback that may throw. *)
Fixpoint Array_forEach (f : JSON -> Try unit) (l : list JSON) : Try unit :=
  match l with
  | [] => Returns tt
  | x :: rest => _ <~ f x; Array_forEach f rest
  end.

(* ================================================================= *)
(** ** Pure functions of both scripts *)

(** [({ name, value }) => `${name}=${value}`] *)
Definition name_value (c : JSON) : Try jsstring :=
  name <~ Get (Some c) (lit "name");
  value <~ Get (Some c) (lit "value");
  n <~ ToStringV name;
  v <~ ToStringV value;
  Returns (n ++ lit "=" ++ v).

(** index.js 51-53, part_000 24-26 *)
Definition serializeCookies (cookies : list JSON) : Try jsstring :=
  parts <~ Array_map name_value cookies;
  Returns (join (lit "; ") parts).

(** [c => c.name === 'XSRF-TOKEN'] *)
Definition named_XSRF (c : JSON) : Try bool :=
  name <~ Get (Some c) (lit "name");
  Returns (is_string name (lit "XSRF-TOKEN")).

(** The server's message for an unknown theme id (index.js 264), in code
    units: U+0644 U+0645 SPACE U+064A U+062A U+0645 SPACE ... U+0628. *)
Definition THEME_NOT_FOUND : jsstring :=
  [1604; 1605; 32; 1610; 1578; 1605; 32; 1573; 1610; 1580; 1575; 1583; 32;
   1575; 1604; 1579; 1610; 1610; 1605; 32; 1575; 1604; 1605; 1591; 1604;
   1608; 1576]%N.

(** [m.includes(marker)]: strings search a substring, arrays an element,
    nothing else has an [includes] method. *)
Definition includes (m : Value) (marker : jsstring) : Try bool :=
  match m with
  | Some (JStr s) => Returns (str_includes s marker)
  | Some (JArr items) =>
      Returns (existsb (fun x => is_string (Some x) marker) items)
  | _ => Throws TypeError
  end.

(* ================================================================= *)
(** ** The world the scripts run in *)

(** cookies.json, by what [fs.existsSync], [fs.readFileSync] and
    [JSON.parse] make of it: no file; a path that exists but cannot be read;
    text that is not JSON; text that parses to [v]. *)
Inductive FileState : Type :=
| Missing
| Unreadable
| Unparsable
| Parses (v : JSON).

(** What the process does to the outside, in the order it does it.  The
    requests carry the X-Xsrf-Token and Cookie headers they were sent with. *)
Inductive Event : Type :=
| BrowserLogin                          (* puppeteer.launch *)
| GetAccount (xsrf cookie : jsstring)   (* GET /api/v1/account *)
| GetThemes (xsrf cookie : jsstring)    (* GET /api/v1/themes *)
| PostUpdate (xsrf cookie : jsstring)   (* POST /api/v1/themes/{id}/update *)
| WriteCookies (cookies : list JSON)    (* fs.writeFileSync(COOKIES_FILE), attempted *)
| UnlinkCookies                         (* fs.unlinkSync(COOKIES_FILE), attempted *)
| UnlinkZip                             (* fs.unlinkSync(ZIP_PATH), attempted *)
| Sleep (ms : nat)                      (* await of a setTimeout promise *)
| RunArchiver.                          (* execPromise of the zip command *)

(** The kinds of event, for counting. *)
Inductive Kind : Type :=
| Logins | Probes | Listings | Uploads | CookieWrites | CookieUnlinks
| ZipUnlinks | Sleeps | ArchiverRuns.

Definition kind (e : Event) : Kind :=
  match e with
  | BrowserLogin => Logins
  | GetAccount _ _ => Probes
  | GetThemes _ _ => Listings
  | PostUpdate _ _ => Uploads
  | WriteCookies _ => CookieWrites
  | UnlinkCookies => CookieUnlinks
  | UnlinkZip => ZipUnlinks
  | Sleep _ => Sleeps
  | RunArchiver => ArchiverRuns
  end.

Definition Kind_eqb (a b : Kind) : bool :=
  match a, b with
  | Logins, Logins | Probes, Probes | Listings, Listings | Uploads, Uploads
  | CookieWrites, CookieWrites | CookieUnlinks, CookieUnlinks
  | ZipUnlinks, ZipUnlinks | Sleeps, Sleeps | ArchiverRuns, ArchiverRuns => true
  | _, _ => false
  end.

(** How many events of a kind a trace holds. *)
Definition count (k : Kind) (t : list Event) : nat :=
  List.length (filter (fun e => Kind_eqb (kind e) k) t).

(** Module-level variables ([cookie], [xsrfToken], index.js 48-49), the two
    files the scripts touch, and the trace so far. *)
Record World : Type := mkWorld {
  cookie : jsstring;
  xsrfToken : jsstring;
  cookies_file : FileState;
  zip_exists : bool;
  trace : list Event
}.

Definition set_cookie (s : jsstring) (w : World) : World :=
  mkWorld s (xsrfToken w) (cookies_file w) (zip_exists w) (trace w).
Definition set_xsrfToken (s : jsstring) (w : World) : World :=
  mkWorld (cookie w) s (cookies_file w) (zip_exists w) (trace w).
Definition set_cookies_file (f : FileState) (w : World) : World :=
  mkWorld (cookie w) (xsrfToken w) f (zip_exists w) (trace w).
Definition set_zip_exists (b : bool) (w : World) : World :=
  mkWorld (cookie w) (xsrfToken w) (cookies_file w) b (trace w).
Definition record (e : Event) (w : World) : World :=
  mkWorld (cookie w) (xsrfToken w) (cookies_file w) (zip_exists w)
          (trace w ++ [e]).

(** An HTTP exchange: a response with its status and parsed body, or a
    request that failed without one. *)
Inductive Http : Type :=
| Responded (status : Z) (data : JSON)
| NoResponse.

Inductive Unlink : Type :=
| Unlinked
| UnlinkFails (code : jsstring).

(** What [fs.writeFileSync(COOKIES_FILE, text)] does.  It returns, and the
    file then reads back as written, or cannot be read (a file keeps its
    mode when it is rewritten); or it throws, at the open with the file
    untouched, or later with the text cut short. *)
Inductive Write : Type :=
| Written (readable : bool)
| WriteFails (code : jsstring) (cut_short : bool).

(** The outside: the answer to the k-th call of each kind (k from 0). *)
Record Env : Type := mkEnv {
  account_answer : nat -> Http;
  themes_answer : nat -> Http;
  update_answer : nat -> Http;
  browser_login : nat -> option (list JSON);   (* page.cookies(), if reached *)
  zip_unlink : nat -> Unlink;
  archiver : nat -> bool;                   (* exit code zero? *)
  cookies_write : nat -> Write;             (* fs.writeFileSync(COOKIES_FILE) *)
  browser_close : nat -> bool;              (* browser.close() resolves? *)
  cookies_unlink : nat -> Unlink            (* fs.unlinkSync(COOKIES_FILE) *)
}.

(* ================================================================= *)
(** ** State and exceptions *)

(** How a computation of the scripts ends: a value, a thrown exception,
    process.exit, or the model's recursion budget used up. *)
Inductive Res (A : Type) : Type :=
| Ok (a : A)
| Exc (e : Exn)
| Exit (code : Z)
| NoFuel.
Arguments Ok {A} a.
Arguments Exc {A} e.
Arguments Exit {A} code.
Arguments NoFuel {A}.

Definition M (A : Type) : Type := World -> World * Res A.

Definition ret {A} (a : A) : M A := fun w => (w, Ok a).

Definition bind {A B} (m : M A) (k : A -> M B) : M B :=
  fun w =>
    match m w with
    | (w', Ok a) => k a w'
    | (w', Exc e) => (w', Exc e)
    | (w', Exit c) => (w', Exit c)
    | (w', NoFuel) => (w', NoFuel)
    end.

Definition throw {A} (e : Exn) : M A := fun w => (w, Exc e).

(** [try { m } catch (err) { h err }] *)
Definition try_catch {A} (m : M A) (h : Exn -> M A) : M A :=
  fun w =>
    match m w with
    | (w', Exc e) => h e w'
    | r => r
    end.

(** A pure computation that may throw. *)
Definition pure {A} (r : Try A) : M A :=
  fun w =>
    match r with
    | Returns a => (w, Ok a)
    | Throws e => (w, Exc e)
    end.

Definition get {A} (f : World -> A) : M A := fun w => (w, Ok (f w)).
Definition modify (f : World -> World) : M unit := fun w => (f w, Ok tt).
Definition emit (e : Event) : M unit := modify (record e).

Notation "x <- m ;; k" := (bind m (fun x => k))
  (at level 61, m at next level, right associativity).
Notation "m ;; k" := (bind m (fun _ => k))
  (at level 61, right associativity).

(* ================================================================= *)
(** ** Code shared by index.js and the listing tool *)

Section Session.

Variable E : Env.

(** [fs.existsSync(COOKIES_FILE)] *)
Definition existsSync_cookies : M bool :=
  get (fun w => match cookies_file w with Missing => false | _ => true end).

(** [JSON.parse(fs.readFileSync(COOKIES_FILE, 'utf-8'))] *)
Definition parse_cookies_file : M JSON :=
  fun w =>
    match cookies_file w with
    | Missing => (w, Exc (FsError (lit "ENOENT")))
    | Unreadable => (w, Exc (FsError (lit "EACCES")))
    | Unparsable => (w, Exc SyntaxError)
    | Parses v => (w, Ok v)
    end.

(** cookies.json after a write of [cookies] that ended as [outcome], when
    it was [before].  Text cut short is not JSON: an array lacks its closing
    bracket. *)
Definition after_write (outcome : Write) (cookies : list JSON)
    (before : FileState) : FileState :=
  match outcome with
  | Written true => Parses (JArr cookies)
  | Written false => Unreadable
  | WriteFails _ false => before
  | WriteFails _ true =>
      match before with
      | Unreadable => Unreadable
      | _ => Unparsable
      end
  end.

(** index.js 55-57.  [JSON.stringify] of an array of parsed values does not
    throw, and its text parses back to the array; [fs.writeFileSync] is the
    outside's. *)
Definition saveCookiesToFile (cookies : list JSON) : M unit :=
  k <- get (fun w => count CookieWrites (trace w)) ;;
  emit (WriteCookies cookies) ;;
  modify (fun w =>
            set_cookies_file
              (after_write (cookies_write E k) cookies (cookies_file w)) w) ;;
  match cookies_write E k with
  | Written _ => ret tt
  | WriteFails code _ => throw (FsError code)
  end.

(** index.js 59-67; [None] is the [null] it returns. *)
Definition loadCookiesFromFile : M (option (list JSON)) :=
  present <- existsSync_cookies ;;
  if negb present then ret None
  else
    try_catch
      (data <- parse_cookies_file ;;
       ret (match data with JArr items => Some items | _ => None end))
      (fun _ => ret None).

(** index.js 69-74 *)
Definition extractTokensFromCookies (cookies : list JSON) : M unit :=
  s <- pure (serializeCookies cookies) ;;
  modify (set_cookie s) ;;
  xsrf <- pure (Array_find named_XSRF cookies) ;;
  if negb (truthy xsrf) then
    throw (Error (lit "XSRF-TOKEN not found in cookies"))
  else
    value <- pure (Get xsrf (lit "value")) ;;
    text <- pure (ToStringV value) ;;
    match URI.decodeURIComponent text with
    | None => throw URIError
    | Some token => modify (set_xsrfToken token)
    end.

(** [await browser.close()] of the [k]-th browser session (index.js 150). *)
Definition browser_close_of (k : nat) : M unit :=
  if browser_close E k then ret tt else throw BrowserError.

(** index.js 76-152.  The browser session itself (the polling that fills
    the form) is the environment's: it reaches the home page and reports
    its cookies, or an await of puppeteer throws (launch, navigation, the
    five-minute timeout).  What the function does with the cookies is the
    code's: lines 146-150. *)
Definition performLoginWithPuppeteer : M unit :=
  k <- get (fun w => count Logins (trace w)) ;;
  emit BrowserLogin ;;
  match browser_login E k with
  | None => throw BrowserError
  | Some cookies =>
      extractTokensFromCookies cookies ;;
      saveCookiesToFile cookies ;;
      browser_close_of k
  end.

(** [axios.get(`${ZID_BASE}/api/v1/account`, { headers, validateStatus:
    s => s < 500 })]; the result is [check.status]. *)
Definition axios_get_account : M Z :=
  k <- get (fun w => count Probes (trace w)) ;;
  x <- get xsrfToken ;;
  c <- get cookie ;;
  emit (GetAccount x c) ;;
  match account_answer E k with
  | Responded status data =>
      if (status <? 500)%Z then ret status
      else throw (AxiosError (Some (status, data)))
  | NoResponse => throw (AxiosError None)
  end.

(** index.js 154-179.  The boolean tells whether the function returned at
    line 169. *)
Definition ensureAuth (forceLogin : bool) : M unit :=
  reused <-
    (if negb forceLogin then
       saved <- loadCookiesFromFile ;;
       match saved with
       | Some cookies =>
           try_catch
             (extractTokensFromCookies cookies ;;
              status <- axios_get_account ;;
              if (status =? 200)%Z then ret true else ret false)
             (fun _ => ret false)
       | None => ret false
       end
     else ret false) ;;
  if reused then ret tt else performLoginWithPuppeteer.

(** [axios.get(`${ZID_BASE}/api/v1/themes`, { headers })], default
    validateStatus (2xx); the result is [res.data]. *)
Definition axios_get_themes : M JSON :=
  k <- get (fun w => count Listings (trace w)) ;;
  x <- get xsrfToken ;;
  c <- get cookie ;;
  emit (GetThemes x c) ;;
  match themes_answer E k with
  | Responded status data =>
      if (200 <=? status)%Z && (status <? 300)%Z then ret data
      else throw (AxiosError (Some (status, data)))
  | NoResponse => throw (AxiosError None)
  end.

(** [listThemes] of either script, given the callback of its [forEach]:
    the inner result is [Some] at the [return res.data.data] and [None]
    when control reaches [return []]. *)
Definition listThemes_with (show : JSON -> Try unit) : M (list JSON) :=
  r <- try_catch
         (ensureAuth false ;;
          data <- axios_get_themes ;;
          themes <- pure (if truthy (Some data)
                          then Get (Some data) (lit "data")
                          else Returns None) ;;
          if truthy themes then
            match themes with
            | Some (JArr items) =>
                pure (Array_forEach show items) ;;
                ret (Some items)
            | _ => throw TypeError
            end
          else ret None)
         (fun _ => ret None) ;;
  match r with
  | Some items => ret items
  | None => ret []
  end.

End Session.

(* ================================================================= *)
(** ** process.env *)

(** The keys the scripts read; [None] is a key that is not set. *)
Record ProcessEnv : Type := mkProcessEnv {
  ZID_BASE : option jsstring;
  ZID_EMAIL : option jsstring;
  ZID_PASSWORD : option jsstring;
  THEME_ID : option jsstring;
  THEME_NAME : option jsstring;
  THEME_CODE : option jsstring;
  THEME_FOLDER : option jsstring;
  ZIP_EXE_PATH : option jsstring
}.

(** [!v] for an environment value: [undefined] and the empty string. *)
Definition not_ (v : option jsstring) : bool :=
  match v with
  | None => true
  | Some s => str_eqb s []
  end.

(** [process.exit(code)] *)
Definition process_exit {A} (code : Z) : M A := fun w => (w, Exit code).

(* ================================================================= *)
(** ** index.js: the sync tool *)

Module Sync.

(** index.js 25-28 *)
Definition config_check (env : ProcessEnv) : M unit :=
  if not_ (ZID_EMAIL env) || not_ (ZID_PASSWORD env) || not_ (THEME_ID env)
  then process_exit 1%Z
  else ret tt.

Section WithEnv.

Variable E : Env.

(** [fs.unlinkSync(ZIP_PATH)] *)
Definition unlinkSync_zip : M unit :=
  k <- get (fun w => count ZipUnlinks (trace w)) ;;
  emit UnlinkZip ;;
  match zip_unlink E k with
  | Unlinked => modify (set_zip_exists false)
  | UnlinkFails code => throw (FsError code)
  end.

(** [err.code === 'EBUSY'] *)
Definition is_EBUSY (err : Exn) : bool :=
  match err with
  | FsError code => str_eqb code (lit "EBUSY")
  | _ => false
  end.

(** The [while (retries > 0)] loop of index.js 187-200: the loop is left by
    [break] after a deletion that worked, [retries] goes down only on the
    retry path. *)
Fixpoint unlink_loop (retries : nat) : M unit :=
  match retries with
  | O => ret tt
  | S retries' =>
      try_catch unlinkSync_zip
        (fun err =>
           if is_EBUSY err && Nat.ltb 1 retries then
             emit (Sleep 1000) ;;
             unlink_loop retries'
           else throw err)
  end.

(** [execPromise(`"${ZIP_EXE_PATH}" a -tzip "${ZIP_PATH}" "*" -r -y`)] *)
Definition execPromise_zip : M unit :=
  k <- get (fun w => count ArchiverRuns (trace w)) ;;
  emit RunArchiver ;;
  if archiver E k then modify (set_zip_exists true)
  else throw ExecError.

(** index.js 181-208 *)
Definition zipTheme : M unit :=
  present <- get zip_exists ;;
  (if present then unlink_loop 5 else ret tt) ;;
  execPromise_zip.

(** [theme => console.log(`  - ${theme.name} (ID: ${theme.id})`)] *)
Definition show_theme (theme : JSON) : Try unit :=
  name <~ Get (Some theme) (lit "name");
  _ <~ ToStringV name;
  id <~ Get (Some theme) (lit "id");
  _ <~ ToStringV id;
  Returns tt.

(** index.js 210-231 *)
Definition listThemes : M (list JSON) := listThemes_with E show_theme.

(** [axios.post(`${ZID_BASE}/api/v1/themes/${THEME_ID}/update`, form,
    { headers })], default validateStatus (2xx); the result is [res.data].
    Building the form (index.js 239-242) is taken to succeed; a request that
    cannot read the archive fails without a response. *)
Definition axios_post_update : M JSON :=
  k <- get (fun w => count Uploads (trace w)) ;;
  x <- get xsrfToken ;;
  c <- get cookie ;;
  emit (PostUpdate x c) ;;
  match update_answer E k with
  | Responded status data =>
      if (200 <=? status)%Z && (status <? 300)%Z then ret data
      else throw (AxiosError (Some (status, data)))
  | NoResponse => throw (AxiosError None)
  end.

(** [fs.unlinkSync(COOKIES_FILE)] (index.js 273): the file is gone, or the
    call throws and the file is as it was. *)
Definition unlinkSync_cookies : M unit :=
  k <- get (fun w => count CookieUnlinks (trace w)) ;;
  emit UnlinkCookies ;;
  match cookies_unlink E k with
  | Unlinked => modify (set_cookies_file Missing)
  | UnlinkFails code => throw (FsError code)
  end.

(** [err.response?.status === 401] *)
Definition is_401 (err : Exn) : bool :=
  match err with
  | AxiosError (Some (status, _)) => (status =? 401)%Z
  | _ => false
  end.

(** [res.data && res.data.status === 'success'] (index.js 257) *)
Definition upload_succeeded (data : JSON) : Try bool :=
  if truthy (Some data) then
    status <~ Get (Some data) (lit "status");
    Returns (is_string status (lit "success"))
  else Returns false.

(** [res.data?.message || 'Unknown error'] (index.js 260) *)
Definition error_message (data : JSON) : Try Value :=
  message <~ GetOpt (Some data) (lit "message");
  Returns (if truthy message then message
           else Some (JStr (lit "Unknown error"))).

(** [errorMessage && errorMessage.includes(marker)] (index.js 264) *)
Definition theme_not_found (errorMessage : Value) : Try bool :=
  if truthy errorMessage then includes errorMessage THEME_NOT_FOUND
  else Returns false.

(** The try/catch of index.js 234-288.  [return uploadTheme()] (lines 276
    and 282) hands the promise of the new call to the caller without
    awaiting it, so the new call runs outside the try block it was made in:
    the result is [true] where the block or its catch clause ends in that
    return, [false] where the function is done. *)
Definition uploadTheme_body : M bool :=
  try_catch
    (ensureAuth E false ;;
     emit (Sleep 500) ;;
     zipTheme ;;
     data <- axios_post_update ;;
     success <- pure (upload_succeeded data) ;;
     if success then ret false
     else
       errorMessage <- pure (error_message data) ;;
       not_found <- pure (theme_not_found errorMessage) ;;
       if not_found then
         listThemes ;;
         ret false
       else
         present <- existsSync_cookies ;;
         (if present then unlinkSync_cookies else ret tt) ;;
         ensureAuth E true ;;
         ret true)
    (fun err =>
       if is_401 err then
         ensureAuth E true ;;
         ret true
       else ret false).

(** index.js 233-289.  Nothing bounds the depth of the calls the function
    makes to itself; [fuel] is the depth the model follows. *)
Fixpoint uploadTheme (fuel : nat) : M unit :=
  match fuel with
  | O => fun w => (w, NoFuel)
  | S fuel' =>
      again <- uploadTheme_body ;;
      if again then uploadTheme fuel' else ret tt
  end.

End WithEnv.

(** *** The watcher (index.js 291-344)

    One event loop: a raw filesystem event, the firing of an armed timer,
    and the return of the awaited [uploadTheme()] are the turns its
    handlers take.  Time is in milliseconds; a timer fires when it is due,
    and no other turn takes place later than an armed timer is due.  An
    [uploadTheme()] that rejects is no turn of the handlers: it ends the
    process ([Step] below). *)

Record WatchState : Type := mkWatch {
  now : nat;
  uploadInProgress : bool;
  uploadTimeout : option nat;     (* the Timeout last returned by setTimeout *)
  armed : list (nat * nat);       (* timers set and neither fired nor cleared:
                                     their id and the time they are due *)
  next_timer : nat;
  cycles : nat                    (* calls of uploadTheme() so far *)
}.

Definition watch_init : WatchState := mkWatch 0 false None [] 0 0.

Inductive Turn : Type :=
| Raw (at_ms : nat)       (* chokidar 'all' at that time *)
| Fire (t : nat)          (* the callback of timer t runs, at its due time *)
| Settled (at_ms : nat).  (* await uploadTheme() returns; finally *)

Definition remove_timer (t : nat) (l : list (nat * nat)) : list (nat * nat) :=
  filter (fun x => negb (Nat.eqb (fst x) t)) l.

(** The due time of [t], if it is armed. *)
Fixpoint due (t : nat) (l : list (nat * nat)) : option nat :=
  match l with
  | [] => None
  | (t', d) :: rest => if Nat.eqb t' t then Some d else due t rest
  end.

(** No armed timer is due before [at_ms]. *)
Definition none_overdue (at_ms : nat) (l : list (nat * nat)) : bool :=
  forallb (fun x => Nat.leb at_ms (snd x)) l.

(** index.js 324-326 and 329-343: clearTimeout of the previous timer (which
    does nothing to one that has fired), then setTimeout(..., 1000). *)
Definition on_all (at_ms : nat) (s : WatchState) : WatchState :=
  let cleared :=
    match uploadTimeout s with
    | Some t => remove_timer t (armed s)
    | None => armed s
    end in
  mkWatch at_ms (uploadInProgress s) (Some (next_timer s))
          (cleared ++ [(next_timer s, at_ms + 1000)]) (S (next_timer s))
          (cycles s).

(** index.js 329-338, up to the await. *)
Definition on_timeout (t at_ms : nat) (s : WatchState) : WatchState :=
  let rest := remove_timer t (armed s) in
  if uploadInProgress s then
    mkWatch at_ms (uploadInProgress s) (uploadTimeout s) rest (next_timer s)
            (cycles s)
  else
    mkWatch at_ms true (uploadTimeout s) rest (next_timer s) (S (cycles s)).

(** The [finally] block, index.js 339-342. *)
Definition on_settled (at_ms : nat) (s : WatchState) : WatchState :=
  mkWatch at_ms false (uploadTimeout s) (armed s) (next_timer s) (cycles s).

(** A turn that cannot happen in [s] gives [None]: one that goes back in
    time or passes an armed timer that is due, the firing of a timer that is
    not armed, a settling with no upload awaited. *)
Definition turn (s : WatchState) (e : Turn) : option WatchState :=
  match e with
  | Raw at_ms =>
      if Nat.leb (now s) at_ms && none_overdue at_ms (armed s)
      then Some (on_all at_ms s) else None
  | Fire t =>
      match due t (armed s) with
      | Some d =>
          if Nat.leb (now s) d && none_overdue d (armed s)
          then Some (on_timeout t d s) else None
      | None => None
      end
  | Settled at_ms =>
      if Nat.leb (now s) at_ms && none_overdue at_ms (armed s)
         && uploadInProgress s
      then Some (on_settled at_ms s) else None
  end.

Fixpoint run (s : WatchState) (es : list Turn) : option WatchState :=
  match es with
  | [] => Some s
  | e :: rest =>
      match turn s e with
      | Some s' => run s' rest
      | None => None
      end
  end.

Definition is_Raw (e : Turn) : bool :=
  match e with
  | Raw _ => true
  | _ => false
  end.

(** The process of the watcher.  The timer callback (index.js 329-343) is
    an async function whose [try] has a [finally] and no [catch]: when the
    awaited [uploadTheme()] rejects, the [finally] block runs and the
    promise of the callback rejects.  Nothing handles that rejection, and
    Node (15 and later) ends the process on it: no handler runs again. *)
Inductive Process : Type :=
| Running (s : WatchState)
| Ended (s : WatchState).       (* the state the process ended in *)

Inductive Step : Type :=
| Handled (e : Turn)            (* a turn of the handlers *)
| Rejected (at_ms : nat).       (* await uploadTheme() throws *)

Definition step (p : Process) (x : Step) : option Process :=
  match p with
  | Ended _ => None
  | Running s =>
      match x with
      | Handled e =>
          match turn s e with
          | Some s' => Some (Running s')
          | None => None
          end
      | Rejected at_ms =>
          if Nat.leb (now s) at_ms && none_overdue at_ms (armed s)
             && uploadInProgress s
          then Some (Ended (on_settled at_ms s)) else None
      end
  end.

Fixpoint run_process (p : Process) (xs : list Step) : option Process :=
  match xs with
  | [] => Some p
  | x :: rest =>
      match step p x with
      | Some p' => run_process p' rest
      | None => None
      end
  end.

End Sync.

(* ================================================================= *)
(** ** The listing tool (src/unnamed/part_000) *)

Module ListTool.

(** part_000 14-17 *)
Definition config_check (env : ProcessEnv) : M unit :=
  if not_ (ZID_EMAIL env) || not_ (ZID_PASSWORD env)
  then process_exit 1%Z
  else ret tt.

(** [x || 'N/A'] *)
Definition or_NA (v : Value) : Value :=
  if truthy v then v else Some (JStr (lit "N/A")).

(** The [forEach] callback of part_000 170-176. *)
Definition show_theme (theme : JSON) : Try unit :=
  name <~ Get (Some theme) (lit "name");
  _ <~ ToStringV name;
  id <~ Get (Some theme) (lit "id");
  _ <~ ToStringV id;
  status <~ Get (Some theme) (lit "status");
  _ <~ ToStringV (or_NA status);
  created <~ Get (Some theme) (lit "created_at");
  _ <~ ToStringV (or_NA created);
  Returns tt.

Section WithEnv.

Variable E : Env.

(** part_000 154-189 *)
Definition listThemes : M (list JSON) := listThemes_with E show_theme.

(** The script from its first statement: part_000 14-17 and 192-198. *)
Definition main (env : ProcessEnv) : M unit :=
  config_check env ;;
  try_catch (listThemes ;; process_exit 0%Z)
            (fun _ => process_exit 1%Z).

End WithEnv.

End ListTool.

(* ================================================================= *)
(** ** Vocabulary of the statements *)

(** *** Sessions *)

(** A percent-encoded sequence [%XY] starts at the head of [s]. *)
Definition escape_here (s : jsstring) : bool :=
  match URI.percent_octet s with
  | Some _ => true
  | None => false
  end.

(** [s] contains a percent-encoded sequence. *)
Fixpoint has_escape (s : jsstring) : bool :=
  match s with
  | [] => false
  | _ :: rest => escape_here s || has_escape rest
  end.

(** A cookie record, as puppeteer gives it and cookies.json stores it: an
    object whose [name] and [value] are strings.  The view is the pair. *)
Definition cookie_view (c : JSON) : option (jsstring * jsstring) :=
  match c with
  | JObj fields =>
      match own (lit "name") fields, own (lit "value") fields with
      | Some (JStr n), Some (JStr v) => Some (n, v)
      | _, _ => None
      end
  | _ => None
  end.

(** A CookieSet: an ordered sequence of cookie records. *)
Definition CookieSet (cookies : list JSON) : Prop :=
  Forall (fun c => cookie_view c <> None) cookies.

(** The CookieSet contains a cookie called [name]. *)
Definition has_cookie (name : jsstring) (cookies : list JSON) : Prop :=
  exists c v, In c cookies /\ cookie_view c = Some (name, v).

Definition XSRF_TOKEN : jsstring := lit "XSRF-TOKEN".

(** The value of the first cookie called XSRF-TOKEN. *)
Fixpoint XSRF_value (cookies : list JSON) : option jsstring :=
  match cookies with
  | [] => None
  | c :: rest =>
      match cookie_view c with
      | Some (n, v) => if str_eqb n XSRF_TOKEN then Some v else XSRF_value rest
      | None => XSRF_value rest
      end
  end.

(** [name=value] of a cookie record, and the Cookie header of a CookieSet:
    the pairs joined by a semicolon and a space. *)
Definition pair_text (c : JSON) : jsstring :=
  match cookie_view c with
  | Some (n, v) => n ++ lit "=" ++ v
  | None => []
  end.

Definition header_text (cookies : list JSON) : jsstring :=
  join (lit "; ") (map pair_text cookies).

(** The error of index.js 72. *)
Definition SessionError : Exn := Error (lit "XSRF-TOKEN not found in cookies").







(** *** Computations and traces *)

(** The world after further events. *)
Definition extend (t : list Event) (w : World) : World :=
  mkWorld (cookie w) (xsrfToken w) (cookies_file w) (zip_exists w)
          (trace w ++ t).

(** A computation leaves an observation [f] of the world as it found it. *)
Definition keeps {X A} (f : World -> X) (m : M A) : Prop :=
  forall w, f (fst (m w)) = f w.

(** A computation returns or throws: it neither ends the process nor runs
    out of the model's fuel. *)
Definition settled {A} (r : Res A) : Prop :=
  match r with
  | Ok _ => True
  | Exc _ => True
  | Exit _ => False
  | NoFuel => False
  end.

Definition settles {A} (m : M A) : Prop :=
  forall w, settled (snd (m w)).

(** *** The outside *)

(** The status of an exchange, when there was a response. *)
Definition status_of (h : Http) : option Z :=
  match h with
  | Responded status _ => Some status
  | NoResponse => None
  end.







(** *** The packager *)

Definition EBUSY : jsstring := lit "EBUSY".

(** [n] failed deletions of the archive, each followed by the one-second
    wait of the retry path. *)
Definition attempts (n : nat) : list Event :=
  List.concat (repeat [UnlinkZip; Sleep 1000] n).

(** *** The watcher *)

(** Every armed timer of the watcher is the one [uploadTimeout] holds. *)
Definition single_timer (s : Sync.WatchState) : Prop :=
  forall t d, In (t, d) (Sync.armed s) -> Sync.uploadTimeout s = Some t.

(** *** Configuration *)

(** A configuration key is missing: not set, or set to the empty string. *)
Definition missing (v : option jsstring) : Prop :=
  v = None \/ v = Some [].

(** *** Further vocabulary *)

(** The tokens in memory are those of the CookieSet on disk: deriving them
    again from cookies.json changes nothing. *)
Definition in_session (w : World) : Prop :=
  exists cookies,
    cookies_file w = Parses (JArr cookies) /\
    extractTokensFromCookies cookies w = (w, Ok tt).

(** The tokens in memory are those that derive from [cookies]. *)
Definition derived_from (cookies : list JSON) (w : World) : Prop :=
  extractTokensFromCookies cookies w = (w, Ok tt).

(** The last thing the process did was to write [cookies] to cookies.json. *)
Definition last_written (cookies : list JSON) (w : World) : Prop :=
  exists t, trace w = t ++ [WriteCookies cookies].

(** The kinds of the events that a computation added to the trace. *)
Definition added (w w' : World) (kinds : list Kind) : Prop :=
  exists t, trace w' = trace w ++ t /\ map kind t = kinds.

(** The body of an answer that axios accepts with its default
    validateStatus (a 2xx status); [None] when axios throws instead. *)
Definition accepted_body (h : Http) : option JSON :=
  match h with
  | Responded status data =>
      if (200 <=? status)%Z && (status <? 300)%Z then Some data else None
  | NoResponse => None
  end.

(** The array at [data.data], when the body is truthy and has one. *)
Definition themes_of (data : JSON) : option (list JSON) :=
  if truthy (Some data) then
    match Get (Some data) (lit "data") with
    | Returns (Some (JArr items)) => Some items
    | _ => None
    end
  else None.

(** A computation never throws the error that [uploadTheme] takes for an
    expired session (an axios error with status 401). *)
Definition never_401 {A} (m : M A) : Prop :=
  forall w w' e, m w = (w', Exc e) -> Sync.is_401 e = false.

(** The upload requests sent so far. *)
Definition uploads (w : World) : nat := count Uploads (trace w).


(** The statements of [uploadTheme] after the answer [data] of the upload
    (index.js 257-277), as they stand in [Sync.uploadTheme_body]. *)
Definition after_answer (E : Env) (data : JSON) : M bool :=
  success <- pure (Sync.upload_succeeded data) ;;
  if success then ret false
  else
    errorMessage <- pure (Sync.error_message data) ;;
    not_found <- pure (Sync.theme_not_found errorMessage) ;;
    if not_found then
      Sync.listThemes E ;;
      ret false
    else
      present <- existsSync_cookies ;;
      (if present then Sync.unlinkSync_cookies E else ret tt) ;;
      ensureAuth E true ;;
      ret true.

(** *** Histories of the watcher *)

(** The time of the most recent raw event of a history that began after a
    raw event at [before], if there was one. *)
Definition last_raw_from (before : option nat) (history : list Sync.Turn)
    : option nat :=
  fold_left (fun last e => match e with
                           | Sync.Raw at_ms => Some at_ms
                           | _ => last
                           end) history before.

Definition last_raw : list Sync.Turn -> option nat := last_raw_from None.

Definition is_Settled (e : Sync.Turn) : bool :=
  match e with
  | Sync.Settled _ => true
  | _ => false
  end.

Definition raw_events (history : list Sync.Turn) : nat :=
  List.length (filter Sync.is_Raw history).

Definition settlings (history : list Sync.Turn) : nat :=
  List.length (filter is_Settled history).

(** The one timer that can be armed is the one [uploadTimeout] holds, due
    1000 ms after the most recent raw event. *)
Definition debounced (last : option nat) (s : Sync.WatchState) : Prop :=
  Sync.armed s = []
  \/ exists t r, Sync.armed s = [(t, r + 1000)]
                 /\ Sync.uploadTimeout s = Some t /\ last = Some r.

(** The times of a burst of raw events: the first, and each next one [g]
    milliseconds after the one before, for the [g] of [gaps] in turn. *)
Fixpoint event_times (first : nat) (gaps : list nat) : list nat :=
  first :: match gaps with
           | [] => []
           | g :: rest => event_times (first + g) rest
           end.

(* ================================================================= *)
(** ** Concrete inputs *)

Module Scenario.

(** A cookie as the browser reports it. *)
Definition cookie_obj (name value : string) : JSON :=
  JObj [(lit "name", JStr (lit name));
        (lit "value", JStr (lit value));
        (lit "domain", JStr (lit "web.zid.sa"));
        (lit "secure", JBool true)].

Definition session : list JSON :=
  [cookie_obj "XSRF-TOKEN" "abc"; cookie_obj "session" "xyz"].

Definition encoded_session : list JSON :=
  [cookie_obj "session" "xyz"; cookie_obj "XSRF-TOKEN" "eyJpdiI6%3D"].

Definition no_token : list JSON := [cookie_obj "session" "xyz"].

Definition bad_token : list JSON :=
  [cookie_obj "XSRF-TOKEN" "%"; cookie_obj "session" "xyz"].

(** A process that has just started, with cookies.json as given and an
    old archive in place or not. *)
Definition fresh (file : FileState) (zip : bool) : World :=
  mkWorld [] [] file zip [].

(** A process that holds the tokens of an earlier login. *)
Definition logged_in : World :=
  mkWorld (lit "XSRF-TOKEN=old; session=old") (lit "old")
          (Parses (JArr no_token)) false [].

Definition ok_body : JSON := JObj [(lit "status", JStr (lit "success"))].


(** An outside in which the probes and the uploads answer as given, the
    archive is locked for the first [locked] deletions, and the rest works:
    the listing answers 200 with no themes, the browser login gives
    [session], the archiver exits with zero, cookies.json can be written,
    read back and deleted, and the browser closes. *)
Definition outside (probes uploads : nat -> Http) (locked : nat) : Env :=
  mkEnv probes
        (fun _ => Responded 200 (JObj [(lit "data", JArr [])]))
        uploads
        (fun _ => Some session)
        (fun k => if Nat.ltb k locked then UnlinkFails (lit "EBUSY")
                  else Unlinked)
        (fun _ => true)
        (fun _ => Written true) (fun _ => true) (fun _ => Unlinked).

(** Everything works. *)
Definition calm : Env :=
  outside (fun _ => Responded 200 JNull) (fun _ => Responded 200 ok_body) 0.

(** The probes answer [status]. *)
Definition probing (status : Z) : Env :=
  outside (fun _ => Responded status JNull) (fun _ => Responded 200 ok_body) 0.

(** The archive is locked for the first [n] deletions. *)
Definition locked_for (n : nat) : Env :=
  outside (fun _ => Responded 200 JNull) (fun _ => Responded 200 ok_body) n.




Definition env_of (email password theme : option jsstring) : ProcessEnv :=
  mkProcessEnv (Some (lit "https://web.zid.sa")) email password theme
               (Some (lit "vineta")) (Some (lit "vineta")) (Some (lit "theme"))
               (Some (lit "7z.exe")).

End Scenario.

(** Further concrete inputs. *)
Module Cases.

Definition theme (id name : string) : JSON :=
  JObj [(lit "id", JStr (lit id)); (lit "name", JStr (lit name));
        (lit "status", JStr (lit "active"))].

Definition two_themes : list JSON :=
  [theme "8f1c" "vineta"; theme "02ab" "classic"].

(** [Scenario.calm], with the listing answered by [answer]. *)
Definition listing (answer : Http) : Env :=
  mkEnv (fun _ => Responded 200 JNull) (fun _ => answer)
        (fun _ => Responded 200 Scenario.ok_body)
        (fun _ => Some Scenario.session) (fun _ => Unlinked) (fun _ => true)
        (fun _ => Written true) (fun _ => true) (fun _ => Unlinked).

(** The uploads are answered by [answer], the browser login works or not,
    the deletion of the archive and the archiver end as given. *)
Definition uploading (answer : Http) (login : option (list JSON))
    (unlink : Unlink) (zip_ok : bool) : Env :=
  mkEnv (fun _ => Responded 200 JNull)
        (fun _ => Responded 200 (JObj [(lit "data", JArr [])]))
        (fun _ => answer) (fun _ => login) (fun _ => unlink)
        (fun _ => zip_ok)
        (fun _ => Written true) (fun _ => true) (fun _ => Unlinked).

(** The first upload is answered by [first], the next ones are accepted;
    the browser login gives [login]. *)
Definition first_upload (first : Http) (login : option (list JSON)) : Env :=
  mkEnv (fun _ => Responded 200 JNull)
        (fun _ => Responded 200 (JObj [(lit "data", JArr [])]))
        (fun k => match k with
                  | O => first
                  | S _ => Responded 200 Scenario.ok_body
                  end)
        (fun _ => login) (fun _ => Unlinked) (fun _ => true)
        (fun _ => Written true) (fun _ => true) (fun _ => Unlinked).



(** The probes answer 403; the browser login ends as [login], the write
    of cookies.json as [write], and the browser closes or not. *)
Definition login_with (login : option (list JSON)) (write : Write)
    (close : bool) : Env :=
  mkEnv (fun _ => Responded 403 JNull)
        (fun _ => Responded 200 (JObj [(lit "data", JArr [])]))
        (fun _ => Responded 200 Scenario.ok_body)
        (fun _ => login) (fun _ => Unlinked) (fun _ => true)
        (fun _ => write) (fun _ => close) (fun _ => Unlinked).

(** A process whose snapshot is [Scenario.session]. *)
Definition start (zip : bool) : World :=
  Scenario.fresh (Parses (JArr Scenario.session)) zip.

(** [start], after [ensureAuth()] reused the snapshot. *)
Definition authenticated (zip : bool) : World :=
  mkWorld (lit "XSRF-TOKEN=abc; session=xyz") (lit "abc")
          (Parses (JArr Scenario.session)) zip
          [GetAccount (lit "abc") (lit "XSRF-TOKEN=abc; session=xyz")].

(** [start false], after the upload request was sent. *)
Definition requested : World :=
  mkWorld (lit "XSRF-TOKEN=abc; session=xyz") (lit "abc")
          (Parses (JArr Scenario.session)) true
          [GetAccount (lit "abc") (lit "XSRF-TOKEN=abc; session=xyz");
           Sleep 500; RunArchiver;
           PostUpdate (lit "abc") (lit "XSRF-TOKEN=abc; session=xyz")].

End Cases.

(* ================================================================= *)
(** ** Strings *)

Lemma str_eqb_eq (a b : jsstring) : str_eqb a b = true <-> a = b.
Proof.
  revert b; induction a as [|x a IH]; intros [|y b]; simpl; split;
    try congruence; try reflexivity.
  - intros H. apply andb_true_iff in H as [H1 H2].
    apply N.eqb_eq in H1. apply IH in H2. congruence.
  - intros H. injection H as -> ->. rewrite N.eqb_refl. simpl. now apply IH.
Qed.

Lemma str_eqb_refl (a : jsstring) : str_eqb a a = true.
Proof. now apply str_eqb_eq. Qed.

(* ================================================================= *)
(** ** decodeURIComponent *)

Module URIFacts.
Import URI.

Lemma percent_octet_shape s B rest :
  percent_octet s = Some (B, rest) ->
  exists h l, s = PERCENT :: h :: l :: rest.
Proof.
  destruct s as [|c [|h [|l r]]]; simpl; try discriminate.
  destruct (N.eqb_spec c PERCENT) as [->|]; try discriminate.
  destruct (hex_digit h), (hex_digit l); try discriminate.
  intros H; injection H as _ <-. now exists h, l.
Qed.

Lemma continuation_length n : forall s bs rest,
  continuation n s = Some (bs, rest) -> (List.length rest <= List.length s)%nat.
Proof.
  induction n as [|n IH]; simpl; intros s bs rest H.
  - injection H as _ <-. lia.
  - destruct (percent_octet s) as [[b r1]|] eqn:Hp; try discriminate.
    destruct (continuation n r1) as [[bs' r2]|] eqn:Hc; try discriminate.
    injection H as _ <-.
    apply percent_octet_shape in Hp as (h & l & ->).
    apply IH in Hc. simpl. lia.
Qed.

Lemma UTF16_length V : (List.length (UTF16EncodeCodePoint V) <= 2)%nat.
Proof. unfold UTF16EncodeCodePoint. destruct (V <? 65536)%N; simpl; lia. Qed.

(** Decoding never lengthens a string, and shortens one that has a percent
    sign: an escape of three code units or more gives at most two. *)
Lemma Decode_length fuel : forall s r,
  Decode fuel s = Some r ->
  (List.length r <= List.length s)%nat /\
  (In PERCENT s -> (List.length r < List.length s)%nat).
Proof.
  induction fuel as [|fuel IH]; intros s r; [discriminate|]. cbn [Decode].
  destruct s as [|c rest];
    [intros H; injection H as <-; simpl; split; [lia|intros []]|].
  destruct (N.eqb_spec c PERCENT) as [->|Hc].
  - destruct (percent_octet (PERCENT :: rest)) as [[B rest1]|] eqn:Hp;
      try discriminate.
    apply percent_octet_shape in Hp as (h & l & Hs). injection Hs as ->.
    cbv zeta. destruct (Nat.eqb (leading_ones B) 0).
    + destruct (Decode fuel rest1) as [r1|] eqn:Hd; try discriminate.
      cbn [option_map]; intros H; injection H as <-.
      apply IH in Hd as [Hd _]. simpl. lia.
    + destruct (Nat.eqb (leading_ones B) 1 || Nat.ltb 4 (leading_ones B));
        try discriminate.
      destruct (continuation (leading_ones B - 1) rest1)
        as [[bs rest2]|] eqn:Hk; try discriminate.
      destruct (utf8_code_point (B :: bs)) as [V|]; try discriminate.
      destruct (Decode fuel rest2) as [r2|] eqn:Hd; try discriminate.
      cbn [option_map]; intros H; injection H as <-.
      apply IH in Hd as [Hd _].
      apply continuation_length in Hk. pose proof (UTF16_length V).
      rewrite length_app. simpl. lia.
  - destruct (Decode fuel rest) as [r1|] eqn:Hd; try discriminate.
    cbn [option_map]; intros H; injection H as <-.
    apply IH in Hd as [Hd1 Hd2]. simpl. split.
    + lia.
    + intros [E|Hin]; [congruence|]. apply Hd2 in Hin. lia.
Qed.

Lemma Decode_plain : forall s fuel,
  (List.length s < fuel)%nat -> ~ In PERCENT s -> Decode fuel s = Some s.
Proof.
  induction s as [|c rest IH]; intros [|fuel] Hf Hn; simpl in *; try lia;
    try reflexivity.
  destruct (N.eqb_spec c PERCENT) as [->|Hc]; [tauto|].
  rewrite IH; [reflexivity|lia|tauto].
Qed.

(** A string that decodes has an escape wherever it has a percent sign. *)
Lemma Decode_escape fuel : forall s r,
  Decode fuel s = Some r -> In PERCENT s -> has_escape s = true.
Proof.
  induction fuel as [|fuel IH]; intros s r; [discriminate|]. cbn [Decode].
  destruct s as [|c rest]; [intros _ []|].
  destruct (N.eqb_spec c PERCENT) as [->|Hc].
  - intros H _. simpl. unfold escape_here.
    destruct (percent_octet (PERCENT :: rest)); [reflexivity|discriminate].
  - destruct (Decode fuel rest) as [r1|] eqn:Hd; try discriminate.
    intros _ [E|Hin]; [congruence|]. simpl.
    rewrite (IH _ _ Hd Hin). apply orb_true_r.
Qed.

Lemma has_escape_percent s : has_escape s = true -> In PERCENT s.
Proof.
  induction s as [|c rest IH]; simpl; try discriminate.
  intros H. apply orb_true_iff in H as [H|H]; [|right; auto].
  unfold escape_here in H.
  destruct (percent_octet (c :: rest)) as [[B r]|] eqn:Hp; try discriminate.
  apply percent_octet_shape in Hp as (h & l & Hs).
  injection Hs as -> _. now left.
Qed.

Lemma decode_fixed v : decodeURIComponent v = Some v <-> ~ In PERCENT v.
Proof.
  unfold decodeURIComponent. split.
  - intros H Hin. apply Decode_length in H as [_ H]. specialize (H Hin). lia.
  - intros H. apply Decode_plain; [lia|assumption].
Qed.

Lemma decode_same_iff v t :
  decodeURIComponent v = Some t -> (t = v <-> has_escape v = false).
Proof.
  intros Hd. split.
  - intros ->. apply decode_fixed in Hd.
    destruct (has_escape v) eqn:He; [|reflexivity].
    apply has_escape_percent in He. tauto.
  - intros He.
    assert (Hn : ~ In PERCENT v).
    { intros Hin. unfold decodeURIComponent in Hd.
      rewrite (Decode_escape _ _ _ Hd Hin) in He. discriminate. }
    apply decode_fixed in Hn. congruence.
Qed.

End URIFacts.

(* ================================================================= *)
(** ** Session derivation *)

Lemma cookie_view_shape c n v :
  cookie_view c = Some (n, v) ->
  exists fields, c = JObj fields
                 /\ own (lit "name") fields = Some (JStr n)
                 /\ own (lit "value") fields = Some (JStr v).
Proof.
  destruct c as [| | | | |fields]; try discriminate. unfold cookie_view.
  destruct (own (lit "name") fields) as [[]|] eqn:Hn; try discriminate.
  destruct (own (lit "value") fields) as [[]|] eqn:Hv; try discriminate.
  intros H; injection H as <- <-. now exists fields.
Qed.

Lemma name_value_cookie c n v :
  cookie_view c = Some (n, v) -> name_value c = Returns (n ++ lit "=" ++ v).
Proof.
  intros H. pose proof H as Hv.
  apply cookie_view_shape in H as (fields & -> & Hn & Hval).
  unfold name_value. cbn [Get bindT]. rewrite Hn, Hval. reflexivity.
Qed.

Lemma pairs_CookieSet cookies :
  CookieSet cookies -> Array_map name_value cookies = Returns (map pair_text cookies).
Proof.
  induction 1 as [|c rest Hc _ IH]; [reflexivity|].
  cbn [Array_map map]. unfold pair_text at 1.
  destruct (cookie_view c) as [[n v]|] eqn:Hv; [|congruence].
  rewrite (name_value_cookie _ _ _ Hv). cbn [bindT]. rewrite IH. reflexivity.
Qed.

Lemma serializeCookies_CookieSet cookies :
  CookieSet cookies -> serializeCookies cookies = Returns (header_text cookies).
Proof.
  intros H. unfold serializeCookies. rewrite (pairs_CookieSet _ H). reflexivity.
Qed.

Lemma named_XSRF_cookie c n v :
  cookie_view c = Some (n, v) -> named_XSRF c = Returns (str_eqb n XSRF_TOKEN).
Proof.
  intros H. apply cookie_view_shape in H as (fields & -> & Hn & _).
  unfold named_XSRF. cbn [Get bindT]. rewrite Hn. reflexivity.
Qed.

(** [find] returns the first cookie called XSRF-TOKEN, whose value is
    [XSRF_value]. *)
Lemma find_XSRF_CookieSet cookies :
  CookieSet cookies ->
  match XSRF_value cookies with
  | None => Array_find named_XSRF cookies = Returns None
  | Some v => exists c, Array_find named_XSRF cookies = Returns (Some c)
                        /\ cookie_view c = Some (XSRF_TOKEN, v)
  end.
Proof.
  induction 1 as [|c rest Hc _ IH]; [reflexivity|].
  cbn [XSRF_value Array_find].
  destruct (cookie_view c) as [[n v]|] eqn:Hv; [|congruence].
  rewrite (named_XSRF_cookie _ _ _ Hv). cbn [bindT].
  destruct (str_eqb n XSRF_TOKEN) eqn:Hn.
  - apply str_eqb_eq in Hn as ->. now exists c.
  - exact IH.
Qed.

Lemma XSRF_value_Some cookies v :
  XSRF_value cookies = Some v -> has_cookie XSRF_TOKEN cookies.
Proof.
  unfold has_cookie. induction cookies as [|c rest IH]; simpl; [discriminate|].
  destruct (cookie_view c) as [[n v']|] eqn:Hv.
  - destruct (str_eqb n XSRF_TOKEN) eqn:Hn.
    + apply str_eqb_eq in Hn as ->. intros _. exists c, v'. auto.
    + intros H. destruct (IH H) as (c' & v'' & Hin & Hc'). exists c', v''. auto.
  - intros H. destruct (IH H) as (c' & v'' & Hin & Hc'). exists c', v''. auto.
Qed.

Lemma XSRF_value_None cookies :
  XSRF_value cookies = None <-> ~ has_cookie XSRF_TOKEN cookies.
Proof.
  split.
  - unfold has_cookie. induction cookies as [|c rest IH]; simpl.
    + intros _ (c & v & Hin & _). exact Hin.
    + intros H (c' & v' & Hin & Hc'). destruct Hin as [<-|Hin].
      * rewrite Hc', str_eqb_refl in H. discriminate.
      * apply IH; [|now exists c', v'].
        destruct (cookie_view c) as [[n v]|]; [|exact H].
        destruct (str_eqb n XSRF_TOKEN); [discriminate|exact H].
  - intros H. destruct (XSRF_value cookies) as [v|] eqn:Hx; [|reflexivity].
    exfalso. apply H. exact (XSRF_value_Some _ _ Hx).
Qed.

(** What [extractTokensFromCookies] does with a CookieSet. *)
Lemma extract_CookieSet cookies w :
  CookieSet cookies ->
  extractTokensFromCookies cookies w =
    let w1 := set_cookie (header_text cookies) w in
    match XSRF_value cookies with
    | None => (w1, Exc SessionError)
    | Some v =>
        match URI.decodeURIComponent v with
        | None => (w1, Exc URIError)
        | Some token => (set_xsrfToken token w1, Ok tt)
        end
    end.
Proof.
  intros H. unfold extractTokensFromCookies, bind, pure, modify, throw.
  rewrite (serializeCookies_CookieSet _ H).
  pose proof (find_XSRF_CookieSet _ H) as Hf.
  destruct (XSRF_value cookies) as [v|].
  - destruct Hf as (c & -> & Hv).
    apply cookie_view_shape in Hv as (fields & -> & _ & Hval).
    cbn [truthy negb Get]. rewrite Hval. cbn [ToStringV ToString].
    destruct (URI.decodeURIComponent v); reflexivity.
  - rewrite Hf. reflexivity.
Qed.

(* ================================================================= *)
(** ** What the session code throws *)

(** ToString throws nothing but a TypeError. *)
Lemma ToString_throws : forall v e, ToString v = Throws e -> e = TypeError.
Proof.
  fix IH 1. intros v e. destruct v as [|b|shown|s|items|fields]; cbn [ToString].
  - discriminate.
  - destruct b; discriminate.
  - discriminate.
  - discriminate.
  - revert e. revert items. fix IHl 1.
    intros [|x rest] e; [discriminate|].
    pose proof (IHl rest) as IHr. pose proof (IH x) as IHx.
    destruct (match x with JNull => Returns [] | _ => ToString x end)
      as [s|e0] eqn:Hx; cbn [bindT].
    + destruct rest as [|y rest']; [discriminate|].
      match goal with
      | |- context [bindT ?r _] => destruct r as [t|e1] eqn:Hr
      end; cbn [bindT]; [discriminate|].
      intros H; injection H as <-.
      first [exact (IHr _ Hr) | apply IHr; reflexivity].
    + intros H; injection H as <-.
      destruct x; try discriminate; exact (IHx _ Hx).
  - destruct (own (lit "toString") fields); [|discriminate].
    intros H; now injection H.
Qed.

Lemma Get_throws v k e : Get v k = Throws e -> e = TypeError.
Proof.
  destruct v as [[]|]; simpl; try discriminate; intros H; now injection H.
Qed.

Lemma ToStringV_throws v e : ToStringV v = Throws e -> e = TypeError.
Proof. destruct v; simpl; [apply ToString_throws|discriminate]. Qed.

Lemma name_value_throws c e : name_value c = Throws e -> e = TypeError.
Proof.
  unfold name_value.
  destruct (Get (Some c) (lit "name")) as [n|e1] eqn:H1; cbn [bindT];
    [|intros H; injection H as <-; eapply Get_throws; eauto].
  destruct (Get (Some c) (lit "value")) as [v|e2] eqn:H2; cbn [bindT];
    [|intros H; injection H as <-; eapply Get_throws; eauto].
  destruct (ToStringV n) as [sn|e3] eqn:H3; cbn [bindT];
    [|intros H; injection H as <-; eapply ToStringV_throws; eauto].
  destruct (ToStringV v) as [sv|e4] eqn:H4; cbn [bindT];
    [discriminate|intros H; injection H as <-; eapply ToStringV_throws; eauto].
Qed.

Lemma serializeCookies_throws cookies e :
  serializeCookies cookies = Throws e -> e = TypeError.
Proof.
  unfold serializeCookies.
  destruct (Array_map name_value cookies) as [parts|e1] eqn:Hm; cbn [bindT];
    [discriminate|].
  intros H; injection H as <-. revert e1 Hm.
  induction cookies as [|c rest IH]; intros e1; cbn [Array_map];
    [discriminate|].
  destruct (name_value c) as [s|e2] eqn:Hc; cbn [bindT].
  - destruct (Array_map name_value rest) as [ss|e3]; cbn [bindT];
      [discriminate|].
    intros H; injection H as <-. now apply IH.
  - intros H; injection H as <-. eapply name_value_throws; eauto.
Qed.

Lemma find_XSRF_throws cookies e :
  Array_find named_XSRF cookies = Throws e -> e = TypeError.
Proof.
  induction cookies as [|c rest IH]; cbn [Array_find]; [discriminate|].
  unfold named_XSRF at 1.
  destruct (Get (Some c) (lit "name")) as [n|e1] eqn:Hn; cbn [bindT].
  - destruct (is_string n (lit "XSRF-TOKEN")); [discriminate|exact IH].
  - intros H; injection H as <-. eapply Get_throws; eauto.
Qed.

(** [extractTokensFromCookies], statement by statement. *)
Lemma extract_cases cookies w :
  extractTokensFromCookies cookies w =
    match serializeCookies cookies with
    | Throws e => (w, Exc e)
    | Returns s =>
        let w1 := set_cookie s w in
        match Array_find named_XSRF cookies with
        | Throws e => (w1, Exc e)
        | Returns xsrf =>
            if negb (truthy xsrf) then (w1, Exc SessionError)
            else
              match Get xsrf (lit "value") with
              | Throws e => (w1, Exc e)
              | Returns value =>
                  match ToStringV value with
                  | Throws e => (w1, Exc e)
                  | Returns text =>
                      match URI.decodeURIComponent text with
                      | None => (w1, Exc URIError)
                      | Some token => (set_xsrfToken token w1, Ok tt)
                      end
                  end
              end
        end
    end.
Proof.
  unfold extractTokensFromCookies, bind, pure, modify, throw.
  destruct (serializeCookies cookies); [|reflexivity].
  destruct (Array_find named_XSRF cookies) as [xsrf|]; [|reflexivity].
  destruct (negb (truthy xsrf)); [reflexivity|].
  destruct (Get xsrf (lit "value")) as [value|]; [|reflexivity].
  destruct (ToStringV value) as [text|]; [|reflexivity].
  destruct (URI.decodeURIComponent text); reflexivity.
Qed.

Lemma failed_extract_token cookies w w' e :
  extractTokensFromCookies cookies w = (w', Exc e) ->
  xsrfToken w' = xsrfToken w.
Proof.
  rewrite extract_cases.
  destruct (serializeCookies cookies) as [s|]; cbv zeta.
  - destruct (Array_find named_XSRF cookies) as [xsrf|].
    + destruct (negb (truthy xsrf));
        [intros H; injection H as <- _; reflexivity|].
      destruct (Get xsrf (lit "value")) as [value|];
        [|intros H; injection H as <- _; reflexivity].
      destruct (ToStringV value) as [text|];
        [|intros H; injection H as <- _; reflexivity].
      destruct (URI.decodeURIComponent text); [discriminate|].
      intros H; injection H as <- _; reflexivity.
    + intros H; injection H as <- _; reflexivity.
  - intros H; injection H as <- _; reflexivity.
Qed.

Lemma extract_errors cookies w w' e :
  extractTokensFromCookies cookies w = (w', Exc e) ->
  e = TypeError \/ e = SessionError \/ e = URIError.
Proof.
  rewrite extract_cases.
  destruct (serializeCookies cookies) as [s|e1] eqn:Hs; cbv zeta.
  - destruct (Array_find named_XSRF cookies) as [xsrf|e2] eqn:Hf.
    + destruct (negb (truthy xsrf)); [intros H; injection H as _ <-; auto|].
      destruct (Get xsrf (lit "value")) as [value|e3] eqn:Hg.
      * destruct (ToStringV value) as [text|e4] eqn:Ht.
        -- destruct (URI.decodeURIComponent text); [discriminate|].
           intros H; injection H as _ <-; auto.
        -- intros H; injection H as _ <-. left.
           eapply ToStringV_throws; eauto.
      * intros H; injection H as _ <-. left. eapply Get_throws; eauto.
    + intros H; injection H as _ <-. left. eapply find_XSRF_throws; eauto.
  - intros H; injection H as _ <-. left.
    eapply serializeCookies_throws; eauto.
Qed.

(** What a derivation stores does not depend on the state it starts in. *)
Lemma extract_transfer cookies w1 w1' w2 :
  extractTokensFromCookies cookies w1 = (w1', Ok tt) ->
  extractTokensFromCookies cookies w2 =
    (set_xsrfToken (xsrfToken w1') (set_cookie (cookie w1') w2), Ok tt).
Proof.
  rewrite !extract_cases.
  destruct (serializeCookies cookies) as [s|]; [|discriminate]. cbv zeta.
  destruct (Array_find named_XSRF cookies) as [xsrf|]; [|discriminate].
  destruct (negb (truthy xsrf)); [discriminate|].
  destruct (Get xsrf (lit "value")) as [value|]; [|discriminate].
  destruct (ToStringV value) as [text|]; [|discriminate].
  destruct (URI.decodeURIComponent text); [|discriminate].
  intros H; injection H as <-. reflexivity.
Qed.


(* ================================================================= *)
(** ** Traces and frames *)

Lemma count_app k t1 t2 : count k (t1 ++ t2) = count k t1 + count k t2.
Proof. unfold count. rewrite filter_app, length_app. reflexivity. Qed.

Lemma count_record k e w :
  count k (trace (record e w)) =
  count k (trace w) + (if Kind_eqb (kind e) k then 1 else 0).
Proof.
  simpl. rewrite count_app. unfold count at 2. simpl.
  destruct (Kind_eqb (kind e) k); reflexivity.
Qed.

Lemma record_extend e w : record e w = extend [e] w.
Proof. reflexivity. Qed.

Lemma extend_extend t1 t2 w : extend t2 (extend t1 w) = extend (t1 ++ t2) w.
Proof. unfold extend. simpl. now rewrite app_assoc. Qed.

Section Frames.

Context {X : Type} (f : World -> X).

Lemma keeps_ret {A} (a : A) : keeps f (ret a).
Proof. intros w. reflexivity. Qed.

Lemma keeps_throw {A} e : keeps f (@throw A e).
Proof. intros w. reflexivity. Qed.

Lemma keeps_exit {A} c : keeps f (@process_exit A c).
Proof. intros w. reflexivity. Qed.

Lemma keeps_pure {A} (r : Try A) : keeps f (pure r).
Proof. intros w. destruct r; reflexivity. Qed.

Lemma keeps_get {A} (g : World -> A) : keeps f (get g).
Proof. intros w. reflexivity. Qed.

Lemma keeps_modify g : (forall w, f (g w) = f w) -> keeps f (modify g).
Proof. intros H w. apply H. Qed.

Lemma keeps_bind {A B} (m : M A) (k : A -> M B) :
  keeps f m -> (forall a, keeps f (k a)) -> keeps f (bind m k).
Proof.
  intros Hm Hk w. unfold bind. specialize (Hm w).
  destruct (m w) as [w1 [a|e|c|]]; simpl in *; try assumption.
  rewrite <- Hm. apply Hk.
Qed.

Lemma keeps_try_catch {A} (m : M A) (h : Exn -> M A) :
  keeps f m -> (forall e, keeps f (h e)) -> keeps f (try_catch m h).
Proof.
  intros Hm Hh w. unfold try_catch. specialize (Hm w).
  destruct (m w) as [w1 [a|e|c|]]; simpl in *; try assumption.
  rewrite <- Hm. apply Hh.
Qed.

End Frames.

Lemma keeps_count_emit k e :
  Kind_eqb (kind e) k = false -> keeps (fun w => count k (trace w)) (emit e).
Proof.
  intros H w. unfold emit, modify. cbn [fst]. rewrite count_record, H. lia.
Qed.

(** Computations that settle. *)

Lemma settles_ret {A} (a : A) : settles (ret a).
Proof. intros w. exact I. Qed.

Lemma settles_throw {A} e : settles (@throw A e).
Proof. intros w. exact I. Qed.

Lemma settles_pure {A} (r : Try A) : settles (pure r).
Proof. intros w. destruct r; exact I. Qed.

Lemma settles_get {A} (g : World -> A) : settles (get g).
Proof. intros w. exact I. Qed.

Lemma settles_modify g : settles (modify g).
Proof. intros w. exact I. Qed.

Lemma settles_bind {A B} (m : M A) (k : A -> M B) :
  settles m -> (forall a, settles (k a)) -> settles (bind m k).
Proof.
  intros Hm Hk w. unfold bind. specialize (Hm w).
  destruct (m w) as [w1 [a|e|c|]]; simpl in *; try assumption. apply Hk.
Qed.

Lemma settles_try_catch {A} (m : M A) (h : Exn -> M A) :
  settles m -> (forall e, settles (h e)) -> settles (try_catch m h).
Proof.
  intros Hm Hh w. unfold try_catch. specialize (Hm w).
  destruct (m w) as [w1 [a|e|c|]]; simpl in *; try assumption. apply Hh.
Qed.

Create HintDb frames.

Lemma keeps_count_of_trace {A} k (m : M A) :
  keeps trace m -> keeps (fun w => count k (trace w)) m.
Proof. intros H w. now rewrite H. Qed.

(** One step of a frame or settling argument: split the computation at
    its head, case on the scrutinee of a branch. *)
Ltac step :=
  match goal with
  | |- keeps _ (bind _ _) => apply keeps_bind; [|intros ?]
  | |- keeps _ (try_catch _ _) => apply keeps_try_catch; [|intros ?]
  | |- keeps _ (ret _) => apply keeps_ret
  | |- keeps _ (throw _) => apply keeps_throw
  | |- keeps _ (process_exit _) => apply keeps_exit
  | |- keeps _ (pure _) => apply keeps_pure
  | |- keeps _ (get _) => apply keeps_get
  | |- keeps _ (emit _) =>
      first [ apply keeps_count_emit; (reflexivity || assumption)
            | intros ?; reflexivity ]
  | |- keeps _ (modify _) => apply keeps_modify; intros ?; reflexivity
  | |- settles (bind _ _) => apply settles_bind; [|intros ?]
  | |- settles (try_catch _ _) => apply settles_try_catch; [|intros ?]
  | |- settles (ret _) => apply settles_ret
  | |- settles (throw _) => apply settles_throw
  | |- settles (pure _) => apply settles_pure
  | |- settles (get _) => apply settles_get
  | |- settles (emit _) => apply settles_modify
  | |- settles (modify _) => apply settles_modify
  | |- keeps _ (if ?b then _ else _) => destruct b
  | |- settles (if ?b then _ else _) => destruct b
  | |- keeps _ (match ?x with _ => _ end) => destruct x
  | |- settles (match ?x with _ => _ end) => destruct x
  | |- keeps _ _ => solve [eauto with frames]
  | |- settles _ => solve [eauto with frames]
  end.

Ltac steps := repeat step.

(** *** The shared session code *)

Lemma extract_keeps_trace cookies : keeps trace (extractTokensFromCookies cookies).
Proof. unfold extractTokensFromCookies. steps. Qed.

Lemma extract_keeps_file cookies :
  keeps cookies_file (extractTokensFromCookies cookies).
Proof. unfold extractTokensFromCookies. steps. Qed.

Lemma extract_keeps_zip cookies :
  keeps zip_exists (extractTokensFromCookies cookies).
Proof. unfold extractTokensFromCookies. steps. Qed.

Lemma extract_settles cookies : settles (extractTokensFromCookies cookies).
Proof. unfold extractTokensFromCookies. steps. Qed.

Lemma load_unchanged w :
  loadCookiesFromFile w =
    (w, Ok (match cookies_file w with
            | Parses (JArr items) => Some items
            | _ => None
            end)).
Proof.
  unfold loadCookiesFromFile, existsSync_cookies, parse_cookies_file,
    bind, get, try_catch, ret.
  destruct (cookies_file w) as [| | |[]] eqn:Hf; cbn; rewrite ?Hf; reflexivity.
Qed.

Lemma load_settles : settles loadCookiesFromFile.
Proof. intros w. rewrite load_unchanged. exact I. Qed.

Lemma load_keeps {X} (f : World -> X) : keeps f loadCookiesFromFile.
Proof. intros w. rewrite load_unchanged. reflexivity. Qed.

#[local] Hint Resolve extract_keeps_trace extract_keeps_file extract_keeps_zip
  extract_settles load_settles load_keeps keeps_count_of_trace : frames.

Section SessionFacts.

Variable E : Env.

Lemma save_keeps_count k cookies :
  Kind_eqb CookieWrites k = false ->
  keeps (fun w => count k (trace w)) (saveCookiesToFile E cookies).
Proof. intros H. unfold saveCookiesToFile. steps. Qed.

Lemma save_keeps_zip cookies : keeps zip_exists (saveCookiesToFile E cookies).
Proof. unfold saveCookiesToFile. steps. Qed.

Lemma save_settles cookies : settles (saveCookiesToFile E cookies).
Proof. unfold saveCookiesToFile. steps. Qed.

Hint Resolve save_keeps_count save_keeps_zip save_settles : frames.

Lemma login_keeps_count k :
  Kind_eqb Logins k = false -> Kind_eqb CookieWrites k = false ->
  keeps (fun w => count k (trace w)) (performLoginWithPuppeteer E).
Proof.
  intros H1 H2. unfold performLoginWithPuppeteer, browser_close_of. steps.
Qed.

Lemma login_keeps_zip : keeps zip_exists (performLoginWithPuppeteer E).
Proof. unfold performLoginWithPuppeteer, browser_close_of. steps. Qed.

Lemma login_settles : settles (performLoginWithPuppeteer E).
Proof. unfold performLoginWithPuppeteer, browser_close_of. steps. Qed.

(** Every call of the Authenticator is one more browser login. *)
Lemma login_counts_once w :
  count Logins (trace (fst (performLoginWithPuppeteer E w))) =
  S (count Logins (trace w)).
Proof.
  unfold performLoginWithPuppeteer, bind at 1 2, get, emit, modify.
  cbn [fst snd].
  destruct (browser_login E (count Logins (trace w))) as [cookies|].
  - assert (K : keeps (fun w => count Logins (trace w))
                  (extractTokensFromCookies cookies ;;
                   saveCookiesToFile E cookies ;;
                   browser_close_of E (count Logins (trace w))))
      by (unfold browser_close_of; steps).
    rewrite K, count_record. simpl. lia.
  - unfold throw. cbn [fst]. rewrite count_record. simpl. lia.
Qed.

Lemma probe_keeps_count k :
  Kind_eqb Probes k = false ->
  keeps (fun w => count k (trace w)) (axios_get_account E).
Proof. intros H. unfold axios_get_account. steps. Qed.

Lemma probe_keeps_zip : keeps zip_exists (axios_get_account E).
Proof. unfold axios_get_account. steps. Qed.

Lemma probe_settles : settles (axios_get_account E).
Proof. unfold axios_get_account. steps. Qed.

Hint Resolve login_keeps_count login_keeps_zip login_settles
  probe_keeps_count probe_keeps_zip probe_settles : frames.

Lemma ensureAuth_keeps_count k force :
  Kind_eqb Logins k = false -> Kind_eqb Probes k = false ->
  Kind_eqb CookieWrites k = false ->
  keeps (fun w => count k (trace w)) (ensureAuth E force).
Proof. intros H1 H2 H3. unfold ensureAuth. steps. Qed.

Lemma ensureAuth_keeps_zip force : keeps zip_exists (ensureAuth E force).
Proof. unfold ensureAuth. steps. Qed.

Lemma ensureAuth_settles force : settles (ensureAuth E force).
Proof. unfold ensureAuth. steps. Qed.

Lemma ensureAuth_forced w :
  ensureAuth E true w = performLoginWithPuppeteer E w.
Proof. reflexivity. Qed.

Lemma themes_keeps_count k :
  Kind_eqb Listings k = false ->
  keeps (fun w => count k (trace w)) (axios_get_themes E).
Proof. intros H. unfold axios_get_themes. steps. Qed.

Lemma themes_settles : settles (axios_get_themes E).
Proof. unfold axios_get_themes. steps. Qed.

Hint Resolve ensureAuth_keeps_count ensureAuth_keeps_zip ensureAuth_settles
  themes_keeps_count themes_settles : frames.

Lemma listThemes_keeps_count show k :
  Kind_eqb Logins k = false -> Kind_eqb Probes k = false ->
  Kind_eqb CookieWrites k = false -> Kind_eqb Listings k = false ->
  keeps (fun w => count k (trace w)) (listThemes_with E show).
Proof. intros H1 H2 H3 H4. unfold listThemes_with. steps. Qed.

(** [listThemes] catches whatever is thrown inside it. *)
Lemma listThemes_returns show w :
  exists themes, snd (listThemes_with E show w) = Ok themes.
Proof.
  unfold listThemes_with.
  set (body := try_catch _ _).
  assert (Hb : forall w, exists r, snd (body w) = Ok r).
  { intros w0. subst body. unfold try_catch.
    match goal with |- context [match ?m w0 with _ => _ end] =>
      assert (Hs : settles m) by steps; specialize (Hs w0);
      destruct (m w0) as [w1 [a|e|c|]] end; simpl in Hs; try contradiction.
    - now exists a.
    - now exists None. }
  unfold bind. destruct (Hb w) as [r Hr]. destruct (body w) as [w1 r1].
  simpl in Hr. subst r1. destruct r as [items|]; eexists; reflexivity.
Qed.

End SessionFacts.

(* ================================================================= *)
(** ** The session cache and session derivation *)

(** C7. [loadCookiesFromFile] never raises and leaves the world as it is:
    whatever the state of cookies.json, it returns the parsed array when the
    file exists and parses to an array, and null when the file is missing,
    cannot be read, is not JSON, or parses to something that is not an
    array. *)
Theorem loadCookiesFromFile_never_raises (w : World) :
  loadCookiesFromFile w =
    (w, Ok match cookies_file w with
           | Missing => None
           | Unreadable => None
           | Unparsable => None
           | Parses (JArr items) => Some items
           | Parses _ => None
           end).
Proof.
  rewrite load_unchanged. destruct (cookies_file w) as [| | |[]]; reflexivity.
Qed.

(** The outcome of deriving a session from a CookieSet. *)
Lemma derivation_result cookies w :
  CookieSet cookies ->
  snd (extractTokensFromCookies cookies w) =
    match XSRF_value cookies with
    | None => Exc SessionError
    | Some v =>
        match URI.decodeURIComponent v with
        | Some _ => Ok tt
        | None => Exc URIError
        end
    end.
Proof.
  intros H. rewrite (extract_CookieSet _ w H). cbv zeta.
  destruct (XSRF_value cookies) as [v|]; [|reflexivity].
  destruct (URI.decodeURIComponent v); reflexivity.
Qed.

(** C5, as the code has it.  Deriving a session from a CookieSet with no
    cookie called XSRF-TOKEN fails with the error of line 72; from a
    CookieSet that has one it succeeds when the value of the first such
    cookie decodes, and fails with a URIError when it does not. *)
Theorem derivation_outcome (cookies : list JSON) (w : World) :
  CookieSet cookies ->
  (~ has_cookie XSRF_TOKEN cookies ->
   snd (extractTokensFromCookies cookies w) = Exc SessionError)
  /\
  (has_cookie XSRF_TOKEN cookies ->
   exists v, XSRF_value cookies = Some v /\
     snd (extractTokensFromCookies cookies w) =
       match URI.decodeURIComponent v with
       | Some _ => Ok tt
       | None => Exc URIError
       end).
Proof.
  intros H. rewrite (derivation_result _ w H). split.
  - intros Hn. apply XSRF_value_None in Hn. now rewrite Hn.
  - intros Hc. destruct (XSRF_value cookies) as [v|] eqn:Hx.
    + now exists v.
    + apply XSRF_value_None in Hx. contradiction.
Qed.

Lemma derivation_outcome_witness :
  CookieSet Scenario.session /\
  ((~ has_cookie XSRF_TOKEN Scenario.session ->
    snd (extractTokensFromCookies Scenario.session Scenario.logged_in)
    = Exc SessionError)
   /\
   (has_cookie XSRF_TOKEN Scenario.session ->
    exists v, XSRF_value Scenario.session = Some v /\
      snd (extractTokensFromCookies Scenario.session Scenario.logged_in) =
        match URI.decodeURIComponent v with
        | Some _ => Ok tt
        | None => Exc URIError
        end)).
Proof.
  split.
  - repeat constructor; discriminate.
  - apply (derivation_outcome Scenario.session Scenario.logged_in).
    repeat constructor; discriminate.
Defined.

(** C5 as stated fails: this CookieSet has a cookie called XSRF-TOKEN, and
    the derivation throws (a URIError, from [decodeURIComponent("%")]). *)
Lemma derivation_fails_with_token :
  CookieSet Scenario.bad_token /\
  has_cookie XSRF_TOKEN Scenario.bad_token /\
  extractTokensFromCookies Scenario.bad_token Scenario.logged_in =
    (set_cookie (lit "XSRF-TOKEN=%; session=xyz") Scenario.logged_in,
     Exc URIError).
Proof.
  split; [repeat constructor; discriminate|]. split.
  - exists (Scenario.cookie_obj "XSRF-TOKEN" "%"), (lit "%").
    split; [left|]; reflexivity.
  - reflexivity.
Qed.

(** C9. For a CookieSet whose first XSRF-TOKEN cookie has value [v]: when
    [v] decodes to [token], the derivation succeeds, sets [cookie] to the
    header text and [xsrfToken] to [token]; [token] is [v] itself exactly
    when [v] has no percent-encoded sequence; and whenever the derivation
    succeeds, [xsrfToken] is the decoding of [v]. *)
Theorem csrfToken_is_decoded_value (cookies : list JSON) (w : World)
    (v : jsstring) :
  CookieSet cookies ->
  XSRF_value cookies = Some v ->
  (forall token,
     URI.decodeURIComponent v = Some token ->
     extractTokensFromCookies cookies w =
       (set_xsrfToken token (set_cookie (header_text cookies) w), Ok tt)
     /\ (token = v <-> has_escape v = false))
  /\
  (forall w',
     extractTokensFromCookies cookies w = (w', Ok tt) ->
     URI.decodeURIComponent v = Some (xsrfToken w')).
Proof.
  intros H Hx. rewrite (extract_CookieSet _ w H), Hx. cbv zeta. split.
  - intros token Hd. rewrite Hd. split; [reflexivity|].
    now apply URIFacts.decode_same_iff.
  - intros w'. destruct (URI.decodeURIComponent v) as [token|];
      intros Heq; [|discriminate].
    injection Heq as <-. reflexivity.
Qed.

Lemma csrfToken_is_decoded_value_witness :
  CookieSet Scenario.encoded_session /\
  XSRF_value Scenario.encoded_session = Some (lit "eyJpdiI6%3D") /\
  URI.decodeURIComponent (lit "eyJpdiI6%3D") = Some (lit "eyJpdiI6=") /\
  extractTokensFromCookies Scenario.encoded_session Scenario.logged_in =
    (set_xsrfToken (lit "eyJpdiI6=")
       (set_cookie (header_text Scenario.encoded_session) Scenario.logged_in),
     Ok tt).
Proof.
  split; [repeat constructor; discriminate|].
  split; [reflexivity|]. split; [reflexivity|].
  apply (csrfToken_is_decoded_value Scenario.encoded_session
           Scenario.logged_in (lit "eyJpdiI6%3D")).
  - repeat constructor; discriminate.
  - reflexivity.
  - reflexivity.
Defined.

(** C10. When the derivation fails because the CookieSet has no cookie
    called XSRF-TOKEN, [cookie] already holds the header text of the new
    CookieSet (its [name=value] pairs joined by a semicolon and a space),
    and [xsrfToken] is what it was. *)
Theorem derivation_not_atomic (cookies : list JSON) (w : World) :
  CookieSet cookies ->
  ~ has_cookie XSRF_TOKEN cookies ->
  extractTokensFromCookies cookies w =
    (set_cookie (header_text cookies) w, Exc SessionError)
  /\ cookie (fst (extractTokensFromCookies cookies w)) = header_text cookies
  /\ xsrfToken (fst (extractTokensFromCookies cookies w)) = xsrfToken w.
Proof.
  intros H Hn. apply XSRF_value_None in Hn.
  rewrite (extract_CookieSet _ w H), Hn. cbv zeta. auto.
Qed.

Lemma derivation_not_atomic_witness :
  CookieSet Scenario.no_token /\
  ~ has_cookie XSRF_TOKEN Scenario.no_token /\
  cookie Scenario.logged_in = lit "XSRF-TOKEN=old; session=old" /\
  cookie (fst (extractTokensFromCookies Scenario.no_token Scenario.logged_in))
    = lit "session=xyz" /\
  xsrfToken (fst (extractTokensFromCookies Scenario.no_token Scenario.logged_in))
    = lit "old".
Proof.
  split; [repeat constructor; discriminate|].
  split; [apply XSRF_value_None; reflexivity|].
  split; [reflexivity|].
  apply (derivation_not_atomic Scenario.no_token Scenario.logged_in).
  - repeat constructor; discriminate.
  - apply XSRF_value_None. reflexivity.
Defined.

(* ================================================================= *)
(** ** ensureAuth *)

Section EnsureAuth.

Variable E : Env.

(** [ensureAuth(false)] up to the answer of the probe, when cookies.json
    holds an array from which the tokens derive. *)
Lemma ensureAuth_probe w cookies w1 :
  cookies_file w = Parses (JArr cookies) ->
  extractTokensFromCookies cookies w = (w1, Ok tt) ->
  ensureAuth E false w =
    let w2 := record (GetAccount (xsrfToken w1) (cookie w1)) w1 in
    match account_answer E (count Probes (trace w)) with
    | Responded status _ =>
        if (status =? 200)%Z then (w2, Ok tt)
        else performLoginWithPuppeteer E w2
    | NoResponse => performLoginWithPuppeteer E w2
    end.
Proof.
  intros Hf Hx.
  assert (Ht : trace w1 = trace w).
  { pose proof (extract_keeps_trace cookies w) as K. now rewrite Hx in K. }
  unfold ensureAuth. cbn [negb]. unfold bind at 1 2. rewrite load_unchanged, Hf.
  unfold try_catch, bind at 1. rewrite Hx.
  unfold axios_get_account, bind, get, emit, modify. rewrite Ht. cbv zeta.
  destruct (account_answer E (count Probes (trace w))) as [status data|].
  - destruct (Z.eqb_spec status 200) as [->|Hs].
    + reflexivity.
    + destruct (status <? 500)%Z; unfold ret, throw.
      * apply Z.eqb_neq in Hs. rewrite Hs. reflexivity.
      * reflexivity.
  - reflexivity.
Qed.

(** [ensureAuth(false)] when the derivation from the cached array throws. *)
Lemma ensureAuth_throws w cookies w1 e :
  cookies_file w = Parses (JArr cookies) ->
  extractTokensFromCookies cookies w = (w1, Exc e) ->
  ensureAuth E false w = performLoginWithPuppeteer E w1.
Proof.
  intros Hf Hx. unfold ensureAuth. cbn [negb]. unfold bind at 1 2.
  rewrite load_unchanged, Hf. unfold try_catch, bind at 1. rewrite Hx.
  reflexivity.
Qed.

End EnsureAuth.

(** C4. [ensureAuth(false)] with a cached array of cookies.  When the
    tokens derive from it and the probe of the account endpoint answers 200,
    the function returns after the probe and the Authenticator is not
    invoked.  On any other answer (another status below 500, or a status
    from 500 up or no response at all, both of which make axios throw), and
    also when the derivation itself throws, the Authenticator is invoked
    exactly once. *)
Theorem ensureAuth_cached_session (E : Env) (w : World)
    (cookies : list JSON) :
  cookies_file w = Parses (JArr cookies) ->
  (forall w1,
     extractTokensFromCookies cookies w = (w1, Ok tt) ->
     status_of (account_answer E (count Probes (trace w))) = Some 200%Z ->
     ensureAuth E false w =
       (record (GetAccount (xsrfToken w1) (cookie w1)) w1, Ok tt)
     /\ count Logins (trace (fst (ensureAuth E false w)))
        = count Logins (trace w))
  /\
  (forall w1,
     extractTokensFromCookies cookies w = (w1, Ok tt) ->
     status_of (account_answer E (count Probes (trace w))) <> Some 200%Z ->
     count Logins (trace (fst (ensureAuth E false w)))
     = S (count Logins (trace w)))
  /\
  (forall w1 e,
     extractTokensFromCookies cookies w = (w1, Exc e) ->
     count Logins (trace (fst (ensureAuth E false w)))
     = S (count Logins (trace w))).
Proof.
  intros Hf. split; [|split].
  - intros w1 Hx Hp.
    assert (Ht : trace w1 = trace w).
    { pose proof (extract_keeps_trace cookies w) as K. now rewrite Hx in K. }
    rewrite (ensureAuth_probe E w cookies w1 Hf Hx). cbv zeta.
    destruct (account_answer E (count Probes (trace w))) as [status data|];
      cbn [status_of] in Hp; [|discriminate].
    injection Hp as ->. cbn [Z.eqb Pos.eqb fst]. split; [reflexivity|].
    rewrite count_record, Ht. simpl. lia.
  - intros w1 Hx Hp.
    assert (Ht : trace w1 = trace w).
    { pose proof (extract_keeps_trace cookies w) as K. now rewrite Hx in K. }
    rewrite (ensureAuth_probe E w cookies w1 Hf Hx). cbv zeta.
    destruct (account_answer E (count Probes (trace w))) as [status data|];
      cbn [status_of] in Hp.
    + destruct (Z.eqb_spec status 200) as [->|_]; [congruence|].
      rewrite login_counts_once, count_record, Ht. simpl. lia.
    + rewrite login_counts_once, count_record, Ht. simpl. lia.
  - intros w1 e Hx.
    assert (Ht : trace w1 = trace w).
    { pose proof (extract_keeps_trace cookies w) as K. now rewrite Hx in K. }
    rewrite (ensureAuth_throws E w cookies w1 e Hf Hx).
    rewrite login_counts_once, Ht. reflexivity.
Qed.

Lemma ensureAuth_cached_session_witness :
  (ensureAuth Scenario.calm false
     (Scenario.fresh (Parses (JArr Scenario.session)) false) =
   (mkWorld (lit "XSRF-TOKEN=abc; session=xyz") (lit "abc")
            (Parses (JArr Scenario.session)) false
            [GetAccount (lit "abc") (lit "XSRF-TOKEN=abc; session=xyz")],
    Ok tt)
   /\ count Logins
        (trace (fst (ensureAuth Scenario.calm false
                       (Scenario.fresh (Parses (JArr Scenario.session)) false))))
      = 0)
  /\
  count Logins
    (trace (fst (ensureAuth (Scenario.probing 403) false
                   (Scenario.fresh (Parses (JArr Scenario.session)) false))))
  = 1
  /\
  count Logins
    (trace (fst (ensureAuth Scenario.calm false
                   (Scenario.fresh (Parses (JArr Scenario.no_token)) false))))
  = 1.
Proof.
  split; [|split].
  - destruct (ensureAuth_cached_session Scenario.calm
                (Scenario.fresh (Parses (JArr Scenario.session)) false)
                Scenario.session eq_refl) as (H & _ & _).
    apply (H (mkWorld (lit "XSRF-TOKEN=abc; session=xyz") (lit "abc")
                (Parses (JArr Scenario.session)) false [])); reflexivity.
  - destruct (ensureAuth_cached_session (Scenario.probing 403)
                (Scenario.fresh (Parses (JArr Scenario.session)) false)
                Scenario.session eq_refl) as (_ & H & _).
    apply (H (mkWorld (lit "XSRF-TOKEN=abc; session=xyz") (lit "abc")
                (Parses (JArr Scenario.session)) false []));
      [reflexivity|discriminate].
  - destruct (ensureAuth_cached_session Scenario.calm
                (Scenario.fresh (Parses (JArr Scenario.no_token)) false)
                Scenario.no_token eq_refl) as (_ & _ & H).
    apply (H (mkWorld (lit "session=xyz") []
                (Parses (JArr Scenario.no_token)) false [])
             SessionError).
    reflexivity.
Defined.

(* ================================================================= *)
(** ** The configuration check *)

(** C8 as stated fails: all three keys are set, ZID_EMAIL to the empty
    string, and both scripts exit with code 1. *)
Lemma empty_key_exits :
  ZID_EMAIL (Scenario.env_of (Some []) (Some (lit "secret")) (Some (lit "42")))
    = Some [] /\
  Sync.config_check
    (Scenario.env_of (Some []) (Some (lit "secret")) (Some (lit "42")))
    (Scenario.fresh Missing false)
    = (Scenario.fresh Missing false, Exit 1%Z) /\
  ListTool.main Scenario.calm
    (Scenario.env_of (Some []) (Some (lit "secret")) (Some (lit "42")))
    (Scenario.fresh Missing false)
    = (Scenario.fresh Missing false, Exit 1%Z).
Proof. repeat split. Qed.

Lemma not_missing v : not_ v = true <-> missing v.
Proof.
  unfold missing. destruct v as [[|c s]|]; simpl.
  - split; auto.
  - split; [discriminate|intros [H|H]; discriminate].
  - split; auto.
Qed.

Lemma some_missing a b c :
  not_ a || not_ b || not_ c = true <-> missing a \/ missing b \/ missing c.
Proof.
  rewrite !orb_true_iff, !not_missing. tauto.
Qed.

(** C8, as the code has it.  A key is missing when it is not set or set to
    the empty string.  If ZID_EMAIL, ZID_PASSWORD or (for the sync tool)
    THEME_ID is missing, the script exits with code 1 in the world it
    started in, so before any request; if none is missing, the check of the
    sync tool is passed, and the listing tool goes on to [listThemes] and
    exits with code 0. *)
Theorem config_check_outcome (E : Env) (env : ProcessEnv) (w : World) :
  (missing (ZID_EMAIL env) \/ missing (ZID_PASSWORD env)
   \/ missing (THEME_ID env) ->
   Sync.config_check env w = (w, Exit 1%Z))
  /\
  (~ (missing (ZID_EMAIL env) \/ missing (ZID_PASSWORD env)
      \/ missing (THEME_ID env)) ->
   Sync.config_check env w = (w, Ok tt))
  /\
  (missing (ZID_EMAIL env) \/ missing (ZID_PASSWORD env) ->
   ListTool.main E env w = (w, Exit 1%Z))
  /\
  (~ (missing (ZID_EMAIL env) \/ missing (ZID_PASSWORD env)) ->
   ListTool.main E env w = (fst (ListTool.listThemes E w), Exit 0%Z)).
Proof.
  unfold Sync.config_check, ListTool.main, ListTool.config_check.
  split; [|split; [|split]].
  - intros H. apply some_missing in H. now rewrite H.
  - intros H. rewrite <- some_missing in H.
    apply not_true_is_false in H. now rewrite H.
  - intros H. rewrite <- !not_missing, <- orb_true_iff in H.
    unfold bind at 1. now rewrite H.
  - intros H. rewrite <- !not_missing, <- orb_true_iff in H.
    apply not_true_is_false in H.
    unfold bind at 1. rewrite H. unfold ret, try_catch, bind, process_exit.
    destruct (listThemes_returns E ListTool.show_theme w) as [themes Ht].
    fold (ListTool.listThemes E) in Ht |- *.
    destruct (ListTool.listThemes E w) as [w1 r]. simpl in Ht. subst r.
    reflexivity.
Qed.

Lemma config_check_outcome_witness :
  Sync.config_check
    (Scenario.env_of None (Some (lit "secret")) (Some (lit "42")))
    (Scenario.fresh Missing false)
  = (Scenario.fresh Missing false, Exit 1%Z)
  /\
  Sync.config_check
    (Scenario.env_of (Some (lit "me@example.com")) (Some (lit "secret"))
                     (Some (lit "42")))
    (Scenario.fresh Missing false)
  = (Scenario.fresh Missing false, Ok tt)
  /\
  ListTool.main Scenario.calm
    (Scenario.env_of (Some (lit "me@example.com")) None None)
    (Scenario.fresh Missing false)
  = (Scenario.fresh Missing false, Exit 1%Z)
  /\
  ListTool.main Scenario.calm
    (Scenario.env_of (Some (lit "me@example.com")) (Some (lit "secret")) None)
    (Scenario.fresh Missing false)
  = (fst (ListTool.listThemes Scenario.calm (Scenario.fresh Missing false)),
     Exit 0%Z).
Proof.
  split; [|split; [|split]].
  - apply (config_check_outcome Scenario.calm). left. left. reflexivity.
  - apply (config_check_outcome Scenario.calm).
    intros [[H|H]|[[H|H]|[H|H]]]; discriminate.
  - apply (config_check_outcome Scenario.calm). right. left. reflexivity.
  - apply (config_check_outcome Scenario.calm).
    intros [[H|H]|[H|H]]; discriminate.
Defined.

(* ================================================================= *)
(** ** The packager *)

Lemma count_extend k t w :
  count k (trace (extend t w)) = count k (trace w) + count k t.
Proof. simpl. apply count_app. Qed.

Lemma count_attempts n : count ZipUnlinks (attempts n) = n.
Proof.
  induction n as [|n IH]; [reflexivity|].
  unfold attempts in *. cbn [repeat List.concat]. rewrite count_app, IH. reflexivity.
Qed.

Lemma attempts_S n : attempts (S n) = [UnlinkZip; Sleep 1000] ++ attempts n.
Proof. reflexivity. Qed.

Section Packager.

Variable E : Env.

Lemma unlinkSync_zip_result w :
  Sync.unlinkSync_zip E w =
    match zip_unlink E (count ZipUnlinks (trace w)) with
    | Unlinked => (set_zip_exists false (extend [UnlinkZip] w), Ok tt)
    | UnlinkFails code => (extend [UnlinkZip] w, Exc (FsError code))
    end.
Proof.
  unfold Sync.unlinkSync_zip, bind, get, emit, modify. cbv beta.
  destruct (zip_unlink E (count ZipUnlinks (trace w))); reflexivity.
Qed.

(** [n] locked attempts that the loop retries. *)
Lemma unlink_loop_busy n : forall retries w,
  n < retries ->
  (forall i, i < n ->
     zip_unlink E (count ZipUnlinks (trace w) + i) = UnlinkFails EBUSY) ->
  Sync.unlink_loop E retries w =
  Sync.unlink_loop E (retries - n) (extend (attempts n) w).
Proof.
  induction n as [|n IH]; intros retries w Hlt Hbusy.
  - rewrite Nat.sub_0_r. unfold attempts, extend. simpl. rewrite app_nil_r.
    now destruct w.
  - destruct retries as [|r]; [lia|].
    cbn [Sync.unlink_loop]. unfold try_catch.
    rewrite unlinkSync_zip_result.
    pose proof (Hbusy 0 ltac:(lia)) as H0. rewrite Nat.add_0_r in H0.
    rewrite H0. cbn [Sync.is_EBUSY]. fold EBUSY. rewrite str_eqb_refl.
    replace (Nat.ltb 1 (S r)) with true
      by (symmetry; apply Nat.ltb_lt; lia).
    cbn [andb]. unfold bind, emit, modify.
    change (record (Sleep 1000) (extend [UnlinkZip] w))
      with (extend [Sleep 1000] (extend [UnlinkZip] w)).
    rewrite extend_extend. cbn [app].
    rewrite (IH r); [|lia|].
    + rewrite extend_extend. reflexivity.
    + intros i Hi. rewrite count_extend.
      change (count ZipUnlinks [UnlinkZip; Sleep 1000]) with 1.
      replace (count ZipUnlinks (trace w) + 1 + i)
        with (count ZipUnlinks (trace w) + S i) by lia.
      apply Hbusy. lia.
Qed.

Lemma zipTheme_present w :
  zip_exists w = true ->
  Sync.zipTheme E w =
  match Sync.unlink_loop E 5 w with
  | (w', Ok _) => Sync.execPromise_zip E w'
  | (w', Exc e) => (w', Exc e)
  | (w', Exit c) => (w', Exit c)
  | (w', NoFuel) => (w', NoFuel)
  end.
Proof.
  intros Hz. unfold Sync.zipTheme. unfold bind at 1. unfold get.
  rewrite Hz. reflexivity.
Qed.

End Packager.

(** C2 as stated fails: the archive is locked for five deletions and free
    at the sixth; [zipTheme] makes five attempts, sleeps four times, and
    throws the EBUSY error of the fifth without a sixth attempt. *)
Lemma zipTheme_gives_up_at_five :
  zip_unlink (Scenario.locked_for 5) 5 = Unlinked /\
  Sync.zipTheme (Scenario.locked_for 5) (Scenario.fresh Missing true) =
    (mkWorld [] [] Missing true
       [UnlinkZip; Sleep 1000; UnlinkZip; Sleep 1000; UnlinkZip; Sleep 1000;
        UnlinkZip; Sleep 1000; UnlinkZip],
     Exc (FsError EBUSY)).
Proof. split; reflexivity. Qed.

(** C2, as the code has it.  With an archive in place, [zipTheme] deletes
    it in at most five attempts: the first and up to four retries, each
    retry after a wait of 1000 ms.  If the first [n] attempts (n below 5)
    find the file locked and the next one deletes it, the archiver runs
    after those [n] waits; if all five find it locked, the EBUSY error of
    the fifth is thrown and the archiver does not run. *)
Theorem zipTheme_deletion_attempts (E : Env) (w : World) :
  zip_exists w = true ->
  (forall n, n < 5 ->
     (forall i, i < n ->
        zip_unlink E (count ZipUnlinks (trace w) + i) = UnlinkFails EBUSY) ->
     zip_unlink E (count ZipUnlinks (trace w) + n) = Unlinked ->
     Sync.zipTheme E w =
       Sync.execPromise_zip E
         (set_zip_exists false (extend (attempts n ++ [UnlinkZip]) w)))
  /\
  ((forall i, i < 5 ->
      zip_unlink E (count ZipUnlinks (trace w) + i) = UnlinkFails EBUSY) ->
   Sync.zipTheme E w =
     (extend (attempts 4 ++ [UnlinkZip]) w, Exc (FsError EBUSY))).
Proof.
  intros Hz. rewrite (zipTheme_present E w Hz). split.
  - intros n Hn Hbusy Hfree.
    rewrite (unlink_loop_busy E n 5 w Hn Hbusy).
    destruct (5 - n) as [|r] eqn:Hr; [lia|].
    cbn [Sync.unlink_loop]. unfold try_catch. rewrite unlinkSync_zip_result.
    rewrite count_extend, count_attempts, Hfree, extend_extend. reflexivity.
  - intros Hbusy.
    rewrite (unlink_loop_busy E 4 5 w ltac:(lia));
      [|intros i Hi; apply Hbusy; lia].
    cbn [Nat.sub Sync.unlink_loop]. unfold try_catch.
    rewrite unlinkSync_zip_result.
    rewrite count_extend, count_attempts, (Hbusy 4 ltac:(lia)), extend_extend.
    cbn [Sync.is_EBUSY]. fold EBUSY. rewrite str_eqb_refl. reflexivity.
Qed.

Lemma zipTheme_deletion_attempts_witness :
  zip_exists (Scenario.fresh Missing true) = true /\
  Sync.zipTheme (Scenario.locked_for 4) (Scenario.fresh Missing true) =
    Sync.execPromise_zip (Scenario.locked_for 4)
      (set_zip_exists false
         (extend (attempts 4 ++ [UnlinkZip]) (Scenario.fresh Missing true)))
  /\
  Sync.zipTheme (Scenario.locked_for 5) (Scenario.fresh Missing true) =
    (extend (attempts 4 ++ [UnlinkZip]) (Scenario.fresh Missing true),
     Exc (FsError EBUSY)).
Proof.
  split; [reflexivity|]. split.
  - apply (zipTheme_deletion_attempts (Scenario.locked_for 4)
             (Scenario.fresh Missing true)).
    + reflexivity.
    + lia.
    + intros i Hi.
      destruct i as [|[|[|[|i]]]]; [reflexivity..|lia].
    + reflexivity.
  - apply (zipTheme_deletion_attempts (Scenario.locked_for 5)
             (Scenario.fresh Missing true)).
    + reflexivity.
    + intros i Hi.
      destruct i as [|[|[|[|[|i]]]]]; [reflexivity..|lia].
Defined.

(* ================================================================= *)
(** ** The watcher *)

Module WatchFacts.
Import Sync.

Lemma remove_timer_In t x l :
  In x (remove_timer t l) -> In x l /\ fst x <> t.
Proof.
  unfold remove_timer. intros H. apply filter_In in H as [H1 H2]. split; auto.
  intros E. rewrite E, Nat.eqb_refl in H2. discriminate.
Qed.

Lemma due_In t d l : due t l = Some d -> In (t, d) l.
Proof.
  induction l as [|[t' d'] l IH]; simpl; [discriminate|].
  destruct (Nat.eqb_spec t' t) as [->|_].
  - intros H; injection H as ->. now left.
  - intros H. right. auto.
Qed.

Lemma single_timer_init : single_timer watch_init.
Proof. intros t d []. Qed.

Lemma single_timer_turn s e s' :
  single_timer s -> turn s e = Some s' -> single_timer s'.
Proof.
  intros Inv. destruct e as [at_ms|t|at_ms]; simpl.
  - destruct (_ && _); [|discriminate].
    intros H; injection H as <-. intros x d. unfold on_all.
    cbn [armed uploadTimeout]. rewrite in_app_iff.
    intros [Hx|[Hx|[]]]; [exfalso|now injection Hx as -> _].
    destruct (uploadTimeout s) as [t0|] eqn:Ht.
    + apply remove_timer_In in Hx as [Hx Hne]. apply Inv in Hx.
      simpl in Hne. congruence.
    + apply Inv in Hx. congruence.
  - destruct (due t (armed s)) as [d|]; [|discriminate].
    destruct (_ && _); [|discriminate].
    intros H; injection H as <-. intros x dx. unfold on_timeout.
    destruct (uploadInProgress s); cbn [armed uploadTimeout];
      intros Hx; apply remove_timer_In in Hx as [Hx _]; now apply Inv in Hx.
  - destruct (_ && _); [|discriminate].
    intros H; injection H as <-. exact Inv.
Qed.

Lemma single_timer_run es : forall s s',
  single_timer s -> run s es = Some s' -> single_timer s'.
Proof.
  induction es as [|e es IH]; simpl; intros s s' Inv H.
  - injection H as <-. exact Inv.
  - destruct (turn s e) as [s1|] eqn:Ht; [|discriminate].
    eapply IH; [|exact H]. eapply single_timer_turn; eauto.
Qed.

(** With no timer armed, nothing but a raw event leads to a cycle. *)
Lemma idle_without_raw es : forall s s',
  armed s = [] ->
  Forall (fun e => is_Raw e = false) es ->
  run s es = Some s' ->
  cycles s' = cycles s.
Proof.
  induction es as [|e es IH]; simpl; intros s s' Ha Hes H.
  - injection H as <-. reflexivity.
  - inversion Hes as [|? ? Hne Hrest]; subst.
    destruct e as [at_ms|t|at_ms]; [discriminate| |].
    + simpl in H. rewrite Ha in H. discriminate.
    + simpl in H. destruct (_ && _); [|discriminate].
      apply IH in H; auto.
Qed.

(** A raw event leaves its own timer armed and no other. *)
Lemma raw_arms_one s at_ms s1 :
  single_timer s -> turn s (Raw at_ms) = Some s1 ->
  s1 = mkWatch at_ms (uploadInProgress s) (Some (next_timer s))
         [(next_timer s, at_ms + 1000)] (S (next_timer s)) (cycles s).
Proof.
  intros Inv. cbn [turn]. destruct (_ && _); [|discriminate].
  intros H; injection H as <-. unfold on_all.
  assert (Hc : match uploadTimeout s with
               | Some t => remove_timer t (armed s)
               | None => armed s
               end = []).
  { destruct (uploadTimeout s) as [t0|] eqn:Ht.
    - destruct (remove_timer t0 (armed s)) as [|[x dx] l] eqn:Hr;
        [reflexivity|exfalso].
      assert (Hx : In (x, dx) (remove_timer t0 (armed s)))
        by (rewrite Hr; now left).
      apply remove_timer_In in Hx as [Hx Hne]. apply Inv in Hx.
      simpl in Hne. congruence.
    - destruct (armed s) as [|[x dx] l] eqn:Ha; [reflexivity|exfalso].
      assert (Hx : In (x, dx) (armed s)) by (rewrite Ha; now left).
      apply Inv in Hx. congruence. }
  now rewrite Hc.
Qed.

End WatchFacts.

(** C3 as stated fails: a raw event at 0 ms starts a cycle at 1000 ms; a
    second raw event arrives at 1400 ms, while [uploadInProgress] is true;
    the upload ends at 1600 ms and no raw event follows; at 2400 ms the
    timer of the second event starts a second cycle. *)
Lemma event_during_upload_starts_cycle :
  exists s1 s2 s3,
    Sync.run Sync.watch_init [Sync.Raw 0; Sync.Fire 0] = Some s1
    /\ Sync.now s1 = 1000
    /\ Sync.uploadInProgress s1 = true /\ Sync.cycles s1 = 1
    /\ Sync.run s1 [Sync.Raw 1400; Sync.Settled 1600] = Some s2
    /\ Sync.uploadInProgress s2 = false /\ Sync.cycles s2 = 1
    /\ Sync.run s2 [Sync.Fire 1] = Some s3
    /\ Sync.now s3 = 2400
    /\ Sync.uploadInProgress s3 = true /\ Sync.cycles s3 = 2.
Proof. do 3 eexists. repeat split. Qed.

(** C3, as the code has it.  In any state the watcher can reach with
    [uploadInProgress] true:

    - a timer that fires starts no cycle, leaves the flag as it is and no
      timer armed; and from there no cycle starts, however the turns go,
      until a raw event arrives;
    - a raw event arms its timer, due 1000 ms later, and no other; if the
      awaited [uploadTheme()] returns before that time, the timer fires
      when it is due and starts a cycle;
    - if the awaited [uploadTheme()] rejects instead, the process ends
      with the cycles it had: no step follows. *)
Theorem dropped_not_deferred (history : list Sync.Turn)
    (s : Sync.WatchState) :
  Sync.run Sync.watch_init history = Some s ->
  Sync.uploadInProgress s = true ->
  (forall t s',
     Sync.turn s (Sync.Fire t) = Some s' ->
     Sync.cycles s' = Sync.cycles s
     /\ Sync.uploadInProgress s' = true
     /\ Sync.armed s' = []
     /\ forall later s'',
          Forall (fun e => Sync.is_Raw e = false) later ->
          Sync.run s' later = Some s'' ->
          Sync.cycles s'' = Sync.cycles s)
  /\
  (forall at_ms s1,
     Sync.turn s (Sync.Raw at_ms) = Some s1 ->
     Sync.armed s1 = [(Sync.next_timer s, at_ms + 1000)]
     /\
     (forall returned,
        at_ms <= returned -> returned <= at_ms + 1000 ->
        Sync.run s1 [Sync.Settled returned; Sync.Fire (Sync.next_timer s)]
        = Some (Sync.mkWatch (at_ms + 1000) true (Some (Sync.next_timer s))
                  [] (S (Sync.next_timer s)) (S (Sync.cycles s))))
     /\
     (forall rejected,
        at_ms <= rejected -> rejected <= at_ms + 1000 ->
        exists s2,
          Sync.step (Sync.Running s1) (Sync.Rejected rejected)
          = Some (Sync.Ended s2)
          /\ Sync.cycles s2 = Sync.cycles s
          /\ forall x, Sync.step (Sync.Ended s2) x = None)).
Proof.
  intros Hreach Hbusy.
  pose proof (WatchFacts.single_timer_run history _ _
                WatchFacts.single_timer_init Hreach) as Inv.
  split.
  - intros t s' Hfire. simpl in Hfire.
    destruct (Sync.due t (Sync.armed s)) as [d|] eqn:Hdue; [|discriminate].
    destruct (_ && _); [|discriminate].
    injection Hfire as <-. unfold Sync.on_timeout. rewrite Hbusy.
    cbn [Sync.cycles Sync.uploadInProgress Sync.armed].
    assert (Hempty : Sync.remove_timer t (Sync.armed s) = []).
    { apply WatchFacts.due_In, Inv in Hdue.
      destruct (Sync.remove_timer t (Sync.armed s)) as [|[x dx] l] eqn:Hr;
        [reflexivity|exfalso].
      assert (Hx : In (x, dx) (Sync.remove_timer t (Sync.armed s)))
        by (rewrite Hr; now left).
      apply WatchFacts.remove_timer_In in Hx as [Hx Hne].
      apply Inv in Hx. simpl in Hne. congruence. }
    repeat split; auto.
    intros later s'' Hlater Hrun.
    apply WatchFacts.idle_without_raw in Hrun; auto.
  - intros at_ms s1 Hraw.
    rewrite (WatchFacts.raw_arms_one s at_ms s1 Inv Hraw), Hbusy.
    split; [reflexivity|].
    assert (Hleb : forall a b, a <= b -> Nat.leb a b = true)
      by (intros a b H; now apply Nat.leb_le).
    split.
    + intros returned H1 H2.
      cbn [Sync.run Sync.turn Sync.now Sync.armed Sync.uploadInProgress
           Sync.none_overdue forallb snd].
      rewrite (Hleb _ _ H1), (Hleb _ _ H2). cbn [andb].
      unfold Sync.on_settled.
      cbn [Sync.now Sync.armed Sync.uploadInProgress Sync.uploadTimeout
           Sync.next_timer Sync.cycles Sync.due fst snd].
      rewrite Nat.eqb_refl.
      cbn [Sync.none_overdue forallb snd].
      rewrite (Hleb _ _ H2), Nat.leb_refl. cbn [andb].
      unfold Sync.on_timeout, Sync.remove_timer.
      cbn [Sync.uploadInProgress Sync.armed Sync.uploadTimeout
           Sync.next_timer Sync.cycles filter fst].
      now rewrite Nat.eqb_refl.
    + intros rejected H1 H2. eexists.
      cbn [Sync.step Sync.now Sync.armed Sync.uploadInProgress
           Sync.none_overdue forallb snd].
      rewrite (Hleb _ _ H1), (Hleb _ _ H2). cbn [andb].
      split; [reflexivity|]. split; reflexivity.
Qed.

Lemma dropped_not_deferred_witness :
  (Sync.cycles (Sync.mkWatch 2400 true (Some 1) [] 2 1) = 1
   /\ Sync.uploadInProgress (Sync.mkWatch 2400 true (Some 1) [] 2 1) = true
   /\ Sync.armed (Sync.mkWatch 2400 true (Some 1) [] 2 1) = []
   /\ forall later s'',
        Forall (fun e => Sync.is_Raw e = false) later ->
        Sync.run (Sync.mkWatch 2400 true (Some 1) [] 2 1) later = Some s'' ->
        Sync.cycles s'' = 1)
  /\
  Sync.run (Sync.mkWatch 1400 true (Some 1) [(1, 2400)] 2 1)
    [Sync.Settled 1600; Sync.Fire 1]
  = Some (Sync.mkWatch 2400 true (Some 1) [] 2 2)
  /\
  exists s2,
    Sync.step (Sync.Running (Sync.mkWatch 1400 true (Some 1) [(1, 2400)] 2 1))
      (Sync.Rejected 1600)
    = Some (Sync.Ended s2)
    /\ Sync.cycles s2 = 1
    /\ forall x, Sync.step (Sync.Ended s2) x = None.
Proof.
  split; [|split].
  - destruct (dropped_not_deferred
                [Sync.Raw 0; Sync.Fire 0; Sync.Raw 1400]
                (Sync.mkWatch 1400 true (Some 1) [(1, 2400)] 2 1)
                eq_refl eq_refl) as [Hfire _].
    apply (Hfire 1 (Sync.mkWatch 2400 true (Some 1) [] 2 1)). reflexivity.
  - destruct (dropped_not_deferred [Sync.Raw 0; Sync.Fire 0]
                (Sync.mkWatch 1000 true (Some 0) [] 1 1)
                eq_refl eq_refl) as [_ Hraw].
    destruct (Hraw 1400 (Sync.mkWatch 1400 true (Some 1) [(1, 2400)] 2 1)
                eq_refl) as (_ & Hreturns & _).
    apply (Hreturns 1600); lia.
  - destruct (dropped_not_deferred [Sync.Raw 0; Sync.Fire 0]
                (Sync.mkWatch 1000 true (Some 0) [] 1 1)
                eq_refl eq_refl) as [_ Hraw].
    destruct (Hraw 1400 (Sync.mkWatch 1400 true (Some 1) [(1, 2400)] 2 1)
                eq_refl) as (_ & _ & Hrejects).
    apply (Hrejects 1600); lia.
Defined.

(* ================================================================= *)
(** ** Errors on the way to the upload *)

Lemma bind_ok {A B} {m : M A} (k : A -> M B) {w w1 a} :
  m w = (w1, Ok a) -> bind m k w = k a w1.
Proof. intros H. unfold bind. now rewrite H. Qed.

Lemma bind_ok_inv {A B} (m : M A) (k : A -> M B) w w' b :
  bind m k w = (w', Ok b) ->
  exists a w1, m w = (w1, Ok a) /\ k a w1 = (w', Ok b).
Proof.
  unfold bind. destruct (m w) as [w1 [a|e|c|]]; try discriminate.
  intros H. now exists a, w1.
Qed.

Lemma bind_exc {A B} {m : M A} (k : A -> M B) {w w1 e} :
  m w = (w1, Exc e) -> bind m k w = (w1, Exc e).
Proof. intros H. unfold bind. now rewrite H. Qed.

Lemma bind_exc_inv {A B} (m : M A) (k : A -> M B) w w' e :
  bind m k w = (w', Exc e) ->
  m w = (w', Exc e)
  \/ exists a w1, m w = (w1, Ok a) /\ k a w1 = (w', Exc e).
Proof.
  unfold bind. destruct (m w) as [w1 [a|e1|c|]]; try discriminate.
  - intros H. right. now exists a, w1.
  - intros H. left. now injection H as -> ->.
Qed.

Lemma never_401_ret {A} (a : A) : never_401 (ret a).
Proof. intros w w' e H. discriminate. Qed.

Lemma never_401_get {A} (g : World -> A) : never_401 (get g).
Proof. intros w w' e H. discriminate. Qed.

Lemma never_401_modify g : never_401 (modify g).
Proof. intros w w' e H. discriminate. Qed.

Lemma never_401_throw {A} e :
  Sync.is_401 e = false -> never_401 (@throw A e).
Proof. intros He w w' e' H. injection H as _ <-. exact He. Qed.

Lemma never_401_bind {A B} (m : M A) (k : A -> M B) :
  never_401 m -> (forall a, never_401 (k a)) -> never_401 (bind m k).
Proof.
  intros Hm Hk w w' e H.
  apply bind_exc_inv in H as [H|(a & w1 & _ & H)].
  - exact (Hm _ _ _ H).
  - exact (Hk a _ _ _ H).
Qed.

Lemma never_401_try_catch {A} (m : M A) (h : Exn -> M A) :
  (forall e, never_401 (h e)) -> never_401 (try_catch m h).
Proof.
  intros Hh w w' e. unfold try_catch.
  destruct (m w) as [w1 [a|e1|c|]]; try discriminate. apply Hh.
Qed.

Lemma never_401_extract cookies : never_401 (extractTokensFromCookies cookies).
Proof.
  intros w w' e H. apply extract_errors in H as [->|[->| ->]]; reflexivity.
Qed.

Section UploadFacts.

Variable E : Env.

Lemma never_401_save cookies : never_401 (saveCookiesToFile E cookies).
Proof.
  unfold saveCookiesToFile.
  apply never_401_bind; [apply never_401_get|intros k].
  apply never_401_bind; [apply never_401_modify|intros _].
  apply never_401_bind; [apply never_401_modify|intros _].
  destruct (cookies_write E k); [apply never_401_ret|].
  now apply never_401_throw.
Qed.

Lemma never_401_login : never_401 (performLoginWithPuppeteer E).
Proof.
  unfold performLoginWithPuppeteer.
  apply never_401_bind; [apply never_401_get|intros k].
  apply never_401_bind; [apply never_401_modify|intros _].
  destruct (browser_login E k) as [cookies|]; [|now apply never_401_throw].
  apply never_401_bind; [apply never_401_extract|intros _].
  apply never_401_bind; [apply never_401_save|intros _].
  unfold browser_close_of.
  destruct (browser_close E k); [apply never_401_ret|].
  now apply never_401_throw.
Qed.

Lemma never_401_ensureAuth force : never_401 (ensureAuth E force).
Proof.
  unfold ensureAuth. apply never_401_bind.
  - destruct force; cbn [negb]; [apply never_401_ret|].
    apply never_401_bind.
    + intros w w' e H. rewrite load_unchanged in H. discriminate.
    + intros [cookies|]; [|apply never_401_ret].
      apply never_401_try_catch. intros e. apply never_401_ret.
  - intros [|]; [apply never_401_ret|apply never_401_login].
Qed.





Lemma zipTheme_keeps_file : keeps cookies_file (Sync.zipTheme E).
Proof.
  assert (L : forall r, keeps cookies_file (Sync.unlink_loop E r)).
  { induction r as [|r IH]; cbn [Sync.unlink_loop]; [apply keeps_ret|].
    unfold Sync.unlinkSync_zip. steps; try exact IH. }
  unfold Sync.zipTheme, Sync.execPromise_zip. steps; try apply L.
Qed.


(** The request of [uploadTheme] up to the answer: what it can throw. *)
Lemma request_throws {A} (rest : JSON -> M A) w w1 e :
  (ensureAuth E false ;; emit (Sleep 500) ;; Sync.zipTheme E ;;
   Sync.axios_post_update E) w = (w1, Exc e) ->
  (ensureAuth E false ;; emit (Sleep 500) ;; Sync.zipTheme E ;;
   data <- Sync.axios_post_update E ;; rest data) w = (w1, Exc e).
Proof.
  intros H.
  apply bind_exc_inv in H as [H|([] & wa & Ha & H)];
    [now rewrite (bind_exc _ H)|].
  rewrite (bind_ok _ Ha).
  apply bind_exc_inv in H as [H|([] & wb & Hb & H)];
    [now rewrite (bind_exc _ H)|].
  rewrite (bind_ok _ Hb).
  apply bind_exc_inv in H as [H|([] & wc & Hc & H)];
    [now rewrite (bind_exc _ H)|].
  rewrite (bind_ok _ Hc). now rewrite (bind_exc _ H).
Qed.

End UploadFacts.


(* ================================================================= *)
(** ** The orchestrator *)

Section Orchestrator.

Variable E : Env.

(** The upload request was sent from [w] and answered with [data]. *)
Lemma request_then {A} (rest : JSON -> M A) w w1 data :
  (ensureAuth E false ;; emit (Sleep 500) ;; Sync.zipTheme E ;;
   Sync.axios_post_update E) w = (w1, Ok data) ->
  (ensureAuth E false ;; emit (Sleep 500) ;; Sync.zipTheme E ;;
   data <- Sync.axios_post_update E ;; rest data) w = rest data w1.
Proof.
  intros H.
  apply bind_ok_inv in H as ([] & wa & Ha & H).
  apply bind_ok_inv in H as ([] & wb & Hb & H).
  apply bind_ok_inv in H as ([] & wc & Hc & H).
  rewrite (bind_ok _ Ha), (bind_ok _ Hb), (bind_ok _ Hc).
  now rewrite (bind_ok _ H).
Qed.

Lemma theme_not_found_string message :
  Sync.theme_not_found (Some (JStr message)) =
  Returns (str_includes message THEME_NOT_FOUND).
Proof.
  unfold Sync.theme_not_found. cbn [truthy includes].
  destruct message as [|c message]; reflexivity.
Qed.







(** The body of [uploadTheme] when the upload is accepted. *)
Lemma body_accepted w w1 data :
  (ensureAuth E false ;; emit (Sleep 500) ;; Sync.zipTheme E ;;
   Sync.axios_post_update E) w = (w1, Ok data) ->
  Sync.upload_succeeded data = Returns true ->
  Sync.uploadTheme_body E w = (w1, Ok false).
Proof.
  intros Hreq Hs. unfold Sync.uploadTheme_body, try_catch.
  rewrite (request_then _ _ _ _ Hreq). rewrite Hs. reflexivity.
Qed.















End Orchestrator.










(* ================================================================= *)
(** ** Further properties: session derivation *)

(** X1. A derivation that fails, from whatever array, leaves [xsrfToken],
    cookies.json and the trace as they were, and throws a TypeError, the
    error of line 72 or a URIError; [cookie] is either untouched or already
    the serialization of the new array. *)
Theorem failed_derivation_keeps_token (cookies : list JSON) (w w' : World)
    (e : Exn) :
  extractTokensFromCookies cookies w = (w', Exc e) ->
  xsrfToken w' = xsrfToken w
  /\ cookies_file w' = cookies_file w
  /\ trace w' = trace w
  /\ (e = TypeError \/ e = SessionError \/ e = URIError)
  /\ (cookie w' = cookie w \/ serializeCookies cookies = Returns (cookie w')).
Proof.
  rewrite extract_cases.
  destruct (serializeCookies cookies) as [s|e1] eqn:Hs.
  - cbv zeta.
    assert (Hw : forall e0, (set_cookie s w, @Exc unit e0) = (w', Exc e) ->
                 (e0 = TypeError \/ e0 = SessionError \/ e0 = URIError) ->
                 xsrfToken w' = xsrfToken w /\ cookies_file w' = cookies_file w
                 /\ trace w' = trace w
                 /\ (e = TypeError \/ e = SessionError \/ e = URIError)
                 /\ (cookie w' = cookie w \/ Returns s = Returns (cookie w'))).
    { intros e0 H He. injection H as <- <-. simpl. auto 6. }
    destruct (Array_find named_XSRF cookies) as [xsrf|e2] eqn:Hf.
    + destruct (negb (truthy xsrf)); [intros H; apply (Hw _ H); auto|].
      destruct (Get xsrf (lit "value")) as [value|e3] eqn:Hg.
      * destruct (ToStringV value) as [text|e4] eqn:Ht.
        -- destruct (URI.decodeURIComponent text); [discriminate|].
           intros H; apply (Hw _ H); auto.
        -- intros H; apply (Hw _ H). left. eapply ToStringV_throws; eauto.
      * intros H; apply (Hw _ H). left. eapply Get_throws; eauto.
    + intros H; apply (Hw _ H). left. eapply find_XSRF_throws; eauto.
  - intros H; injection H as <- <-.
    apply serializeCookies_throws in Hs. auto 6.
Qed.

Lemma failed_derivation_keeps_token_witness :
  xsrfToken (set_cookie (lit "XSRF-TOKEN=%; session=xyz") Scenario.logged_in)
    = xsrfToken Scenario.logged_in
  /\ cookies_file
       (set_cookie (lit "XSRF-TOKEN=%; session=xyz") Scenario.logged_in)
     = cookies_file Scenario.logged_in
  /\ trace (set_cookie (lit "XSRF-TOKEN=%; session=xyz") Scenario.logged_in)
     = trace Scenario.logged_in
  /\ (URIError = TypeError \/ URIError = SessionError \/ URIError = URIError)
  /\ (cookie (set_cookie (lit "XSRF-TOKEN=%; session=xyz") Scenario.logged_in)
      = cookie Scenario.logged_in
      \/ serializeCookies Scenario.bad_token =
         Returns (cookie (set_cookie (lit "XSRF-TOKEN=%; session=xyz")
                            Scenario.logged_in))).
Proof.
  apply (failed_derivation_keeps_token Scenario.bad_token Scenario.logged_in).
  reflexivity.
Defined.

(** X2. What a derivation stores depends on the array alone: if it
    succeeds from one state of the module variables, it succeeds from any
    other and stores the same [cookie] and [xsrfToken]. *)
Theorem derivation_depends_on_cookies_only (cookies : list JSON)
    (w1 w1' w2 : World) :
  extractTokensFromCookies cookies w1 = (w1', Ok tt) ->
  extractTokensFromCookies cookies w2 =
    (set_xsrfToken (xsrfToken w1') (set_cookie (cookie w1') w2), Ok tt).
Proof. apply extract_transfer. Qed.

Lemma derivation_depends_on_cookies_only_witness :
  extractTokensFromCookies Scenario.session Scenario.logged_in =
    (set_xsrfToken (lit "abc")
       (set_cookie (lit "XSRF-TOKEN=abc; session=xyz") Scenario.logged_in),
     Ok tt).
Proof.
  apply (derivation_depends_on_cookies_only Scenario.session
           (Scenario.fresh Missing false)
           (mkWorld (lit "XSRF-TOKEN=abc; session=xyz") (lit "abc")
                    Missing false [])
           Scenario.logged_in).
  reflexivity.
Defined.

(** X3. An array with a null entry is rejected before anything is stored:
    the serialization throws a TypeError and the world is as it was. *)
Theorem null_cookie_rejected_untouched (cookies : list JSON) (w : World) :
  In JNull cookies ->
  extractTokensFromCookies cookies w = (w, Exc TypeError).
Proof.
  intros Hin. rewrite extract_cases.
  assert (Hs : exists e, serializeCookies cookies = Throws e).
  { unfold serializeCookies.
    assert (Hm : exists e, Array_map name_value cookies = Throws e).
    { induction cookies as [|c rest IH]; [destruct Hin|].
      cbn [Array_map]. destruct Hin as [->|Hin].
      - now exists TypeError.
      - destruct (name_value c) as [s|e]; cbn [bindT]; [|now exists e].
        destruct (IH Hin) as [e He]. rewrite He. now exists e. }
    destruct Hm as [e He]. rewrite He. now exists e. }
  destruct Hs as [e He]. rewrite He.
  apply serializeCookies_throws in He. now subst.
Qed.

Lemma null_cookie_rejected_untouched_witness :
  extractTokensFromCookies
    [Scenario.cookie_obj "XSRF-TOKEN" "abc"; JNull] Scenario.logged_in
  = (Scenario.logged_in, Exc TypeError).
Proof.
  apply (null_cookie_rejected_untouched
           [Scenario.cookie_obj "XSRF-TOKEN" "abc"; JNull] Scenario.logged_in).
  right. left. reflexivity.
Defined.

(* ================================================================= *)
(** ** Further properties: login and ensureAuth *)

Lemma added_nothing w w' : trace w' = trace w -> added w w' [].
Proof. intros H. exists []. now rewrite app_nil_r. Qed.

Lemma added_event e w : added w (record e w) [kind e].
Proof. now exists [e]. Qed.

Lemma added_then w w1 w2 k1 k2 :
  added w w1 k1 -> added w1 w2 k2 -> added w w2 (k1 ++ k2).
Proof.
  intros (t1 & H1 & <-) (t2 & H2 & <-). exists (t1 ++ t2).
  now rewrite H2, H1, app_assoc, map_app.
Qed.

Lemma extract_result cookies w :
  snd (extractTokensFromCookies cookies w) = Ok tt
  \/ exists e, snd (extractTokensFromCookies cookies w) = Exc e.
Proof.
  pose proof (extract_settles cookies w) as H.
  destruct (snd (extractTokensFromCookies cookies w)) as [[]|e|c|];
    simpl in H; try contradiction; eauto.
Qed.

Lemma extract_fixed cookies w w1 w2 :
  extractTokensFromCookies cookies w = (w1, Ok tt) ->
  cookie w2 = cookie w1 -> xsrfToken w2 = xsrfToken w1 ->
  extractTokensFromCookies cookies w2 = (w2, Ok tt).
Proof.
  intros H Hc Hx. rewrite (extract_transfer cookies w w1 w2 H), <- Hc, <- Hx.
  now destruct w2.
Qed.

Section LoginFacts.

Variable E : Env.

(** [performLoginWithPuppeteer], outcome by outcome. *)
Lemma login_cases w :
  performLoginWithPuppeteer E w =
    match browser_login E (count Logins (trace w)) with
    | None => (record BrowserLogin w, Exc BrowserError)
    | Some cookies =>
        match extractTokensFromCookies cookies (record BrowserLogin w) with
        | (w1, Ok _) =>
            let write := cookies_write E (count CookieWrites (trace w1)) in
            let w2 :=
              set_cookies_file (after_write write cookies (cookies_file w1))
                (record (WriteCookies cookies) w1) in
            match write with
            | WriteFails code _ => (w2, Exc (FsError code))
            | Written _ =>
                if browser_close E (count Logins (trace w))
                then (w2, Ok tt) else (w2, Exc BrowserError)
            end
        | (w1, Exc e) => (w1, Exc e)
        | (w1, Exit c) => (w1, Exit c)
        | (w1, NoFuel) => (w1, NoFuel)
        end
    end.
Proof.
  unfold performLoginWithPuppeteer, bind at 1 2, get, emit, modify.
  destruct (browser_login E (count Logins (trace w))) as [cookies|];
    [|reflexivity].
  unfold bind at 1.
  destruct (extractTokensFromCookies cookies (record BrowserLogin w))
    as [w1 [[]|e|c|]]; try reflexivity.
  unfold saveCookiesToFile, browser_close_of, bind, get, emit, modify.
  cbv zeta.
  destruct (cookies_write E (count CookieWrites (trace w1))) as [r|code cut];
    [|reflexivity].
  destruct (browser_close E (count Logins (trace w))); reflexivity.
Qed.

(** How a login ends: it returns after the write, with the tokens of the
    cookies written; it throws before the write, with cookies.json and
    [xsrfToken] untouched; or it throws at the write or at the closing of
    the browser, with the new tokens stored. *)
Lemma login_shape w :
  (snd (performLoginWithPuppeteer E w) = Ok tt
   /\ added w (fst (performLoginWithPuppeteer E w)) [Logins; CookieWrites]
   /\ exists cookies,
        derived_from cookies (fst (performLoginWithPuppeteer E w))
        /\ last_written cookies (fst (performLoginWithPuppeteer E w))
        /\ (cookies_file (fst (performLoginWithPuppeteer E w))
              = Parses (JArr cookies)
            \/ cookies_file (fst (performLoginWithPuppeteer E w))
               = Unreadable))
  \/
  (exists e, snd (performLoginWithPuppeteer E w) = Exc e
   /\ added w (fst (performLoginWithPuppeteer E w)) [Logins]
   /\ cookies_file (fst (performLoginWithPuppeteer E w)) = cookies_file w
   /\ xsrfToken (fst (performLoginWithPuppeteer E w)) = xsrfToken w
   /\ (browser_login E (count Logins (trace w)) = None
       \/ exists cookies w1 e1,
            browser_login E (count Logins (trace w)) = Some cookies
            /\ extractTokensFromCookies cookies (record BrowserLogin w)
               = (w1, Exc e1)))
  \/
  (exists e, snd (performLoginWithPuppeteer E w) = Exc e
   /\ added w (fst (performLoginWithPuppeteer E w)) [Logins; CookieWrites]
   /\ (e = BrowserError \/ exists code, e = FsError code)
   /\ exists cookies,
        browser_login E (count Logins (trace w)) = Some cookies
        /\ derived_from cookies (fst (performLoginWithPuppeteer E w))
        /\ last_written cookies (fst (performLoginWithPuppeteer E w))).
Proof.
  rewrite login_cases.
  destruct (browser_login E (count Logins (trace w))) as [cookies|].
  - pose proof (extract_keeps_trace cookies (record BrowserLogin w)) as Kt.
    pose proof (extract_keeps_file cookies (record BrowserLogin w)) as Kf.
    destruct (extractTokensFromCookies cookies (record BrowserLogin w))
      as [w1 r] eqn:Hx.
    destruct (extract_result cookies (record BrowserLogin w)) as [Hr|[e Hr]];
      rewrite Hx in Hr; simpl in Hr, Kt, Kf; subst r.
    + cbv zeta.
      set (write := cookies_write E (count CookieWrites (trace w1))).
      set (w2 := set_cookies_file _ _).
      assert (Ha : added w w2 [Logins; CookieWrites]).
      { exists [BrowserLogin; WriteCookies cookies]. split; [|reflexivity].
        subst w2. simpl. rewrite Kt. simpl. now rewrite <- app_assoc. }
      assert (Hd : derived_from cookies w2).
      { eapply extract_fixed; [exact Hx|reflexivity|reflexivity]. }
      assert (Hl : last_written cookies w2) by (now exists (trace w1)).
      destruct write as [readable|code cut] eqn:Hw.
      * destruct (browser_close E (count Logins (trace w))).
        -- left. split; [reflexivity|]. split; [exact Ha|].
           exists cookies. split; [exact Hd|]. split; [exact Hl|].
           subst w2. cbn [fst cookies_file set_cookies_file after_write].
           destruct readable; auto.
        -- right; right. exists BrowserError. split; [reflexivity|].
           split; [exact Ha|]. split; [now left|]. now exists cookies.
      * right; right. exists (FsError code). split; [reflexivity|].
        split; [exact Ha|]. split; [right; now exists code|].
        now exists cookies.
    + right; left. exists e. split; [reflexivity|]. cbn [fst]. split.
      * exists [BrowserLogin]. now rewrite Kt.
      * split; [exact Kf|].
        split; [exact (failed_extract_token cookies _ _ _ Hx)|].
        right. now exists cookies, w1, e.
  - right; left. exists BrowserError. split; [reflexivity|]. cbn [fst].
    split; [apply added_event|]. repeat split. now left.
Qed.

(** [ensureAuth(false)] when cookies.json gives no array. *)
Lemma ensureAuth_no_snapshot w :
  (forall items, cookies_file w <> Parses (JArr items)) ->
  ensureAuth E false w = performLoginWithPuppeteer E w.
Proof.
  intros H. unfold ensureAuth. cbn [negb]. unfold bind at 1 2.
  rewrite load_unchanged.
  destruct (cookies_file w) as [| | |[]] eqn:Hf; try reflexivity.
  exfalso. now apply (H items).
Qed.

(** Where [ensureAuth] ends, by the path it took. *)
Lemma ensureAuth_paths force w :
  (force = false
   /\ snd (ensureAuth E force w) = Ok tt
   /\ added w (fst (ensureAuth E force w)) [Probes]
   /\ in_session (fst (ensureAuth E force w)))
  \/
  (exists w0 before,
     ensureAuth E force w = performLoginWithPuppeteer E w0
     /\ added w w0 before
     /\ (before = [] \/ force = false /\ before = [Probes])).
Proof.
  destruct force.
  - right. exists w, []. rewrite ensureAuth_forced.
    split; [reflexivity|]. split; [now apply added_nothing|now left].
  - destruct (cookies_file w) as [| | |v] eqn:Hf;
      try (right; exists w, []; rewrite ensureAuth_no_snapshot;
           [split; [reflexivity|split; [now apply added_nothing|now left]]
           |intros items; congruence]).
    destruct v as [| | | |cookies|];
      try (right; exists w, []; rewrite ensureAuth_no_snapshot;
           [split; [reflexivity|split; [now apply added_nothing|now left]]
           |intros items; congruence]).
    pose proof (extract_keeps_trace cookies w) as Kt.
    pose proof (extract_keeps_file cookies w) as Kf.
    destruct (extractTokensFromCookies cookies w) as [w1 r] eqn:Hx.
    destruct (extract_result cookies w) as [Hr|[e Hr]];
      rewrite Hx in Hr; simpl in Hr, Kt, Kf; subst r.
    + rewrite (ensureAuth_probe E w cookies w1 Hf Hx). cbv zeta.
      set (w2 := record (GetAccount (xsrfToken w1) (cookie w1)) w1).
      assert (Ha : added w w2 [Probes]).
      { exists [GetAccount (xsrfToken w1) (cookie w1)]. subst w2. simpl.
        now rewrite Kt. }
      assert (Hlogin : exists w0 before,
                 performLoginWithPuppeteer E w2 = performLoginWithPuppeteer E w0
                 /\ added w w0 before
                 /\ (before = [] \/ false = false /\ before = [Probes])).
      { exists w2, [Probes]. split; [reflexivity|]. split; [exact Ha|].
        right. now split. }
      destruct (account_answer E (count Probes (trace w))) as [status data|];
        [|right; exact Hlogin].
      destruct (status =? 200)%Z; [|right; exact Hlogin].
      left. split; [reflexivity|]. split; [reflexivity|]. cbn [fst].
      split; [exact Ha|]. exists cookies. split.
      * subst w2. simpl. congruence.
      * eapply extract_fixed; [exact Hx|reflexivity|reflexivity].
    + right. exists w1, []. rewrite (ensureAuth_throws E w cookies w1 e Hf Hx).
      split; [reflexivity|]. split; [now apply added_nothing|now left].
Qed.

End LoginFacts.

(** X4. Whenever [ensureAuth] returns, forced or not, the tokens in memory
    are those of the snapshot on disk: cookies.json parses to an array, and
    deriving the tokens from it again changes nothing.  The one exception
    is a cookies.json that this call wrote and that cannot be read back:
    the tokens are then those of the array just written. *)
Theorem ensureAuth_leaves_session (E : Env) (force : bool) (w w' : World) :
  ensureAuth E force w = (w', Ok tt) ->
  in_session w'
  \/ (cookies_file w' = Unreadable
      /\ exists cookies, derived_from cookies w' /\ last_written cookies w').
Proof.
  intros H.
  destruct (ensureAuth_paths E force w) as [(_ & _ & _ & Hs)|(w0 & b & Hl & _)].
  - left. now rewrite H in Hs.
  - rewrite Hl in H.
    destruct (login_shape E w0)
      as [(_ & _ & cookies & Hd & Hw & Hf)|[(e & Hr & _)|(e & Hr & _)]];
      rewrite H in *; try discriminate.
    cbn [fst] in *. destruct Hf as [Hf|Hf].
    + left. now exists cookies.
    + right. split; [exact Hf|]. now exists cookies.
Qed.

Lemma ensureAuth_leaves_session_witness :
  (in_session
     (mkWorld (lit "XSRF-TOKEN=abc; session=xyz") (lit "abc")
              (Parses (JArr Scenario.session)) false
              [GetAccount (lit "abc") (lit "XSRF-TOKEN=abc; session=xyz");
               BrowserLogin; WriteCookies Scenario.session])
   \/ (cookies_file
         (mkWorld (lit "XSRF-TOKEN=abc; session=xyz") (lit "abc")
                  (Parses (JArr Scenario.session)) false
                  [GetAccount (lit "abc") (lit "XSRF-TOKEN=abc; session=xyz");
                   BrowserLogin; WriteCookies Scenario.session])
       = Unreadable
       /\ exists cookies,
            derived_from cookies
              (mkWorld (lit "XSRF-TOKEN=abc; session=xyz") (lit "abc")
                 (Parses (JArr Scenario.session)) false
                 [GetAccount (lit "abc") (lit "XSRF-TOKEN=abc; session=xyz");
                  BrowserLogin; WriteCookies Scenario.session])
            /\ last_written cookies
                 (mkWorld (lit "XSRF-TOKEN=abc; session=xyz") (lit "abc")
                    (Parses (JArr Scenario.session)) false
                    [GetAccount (lit "abc")
                       (lit "XSRF-TOKEN=abc; session=xyz");
                     BrowserLogin; WriteCookies Scenario.session])))
  /\
  (in_session
     (mkWorld (lit "XSRF-TOKEN=abc; session=xyz") (lit "abc") Unreadable
              false [BrowserLogin; WriteCookies Scenario.session])
   \/ (cookies_file
         (mkWorld (lit "XSRF-TOKEN=abc; session=xyz") (lit "abc") Unreadable
                  false [BrowserLogin; WriteCookies Scenario.session])
       = Unreadable
       /\ exists cookies,
            derived_from cookies
              (mkWorld (lit "XSRF-TOKEN=abc; session=xyz") (lit "abc")
                 Unreadable false
                 [BrowserLogin; WriteCookies Scenario.session])
            /\ last_written cookies
                 (mkWorld (lit "XSRF-TOKEN=abc; session=xyz") (lit "abc")
                    Unreadable false
                    [BrowserLogin; WriteCookies Scenario.session]))).
Proof.
  split.
  - apply (ensureAuth_leaves_session (Scenario.probing 403) false
             (Scenario.fresh (Parses (JArr Scenario.session)) false)).
    reflexivity.
  - apply (ensureAuth_leaves_session
             (Cases.login_with (Some Scenario.session) (Written false) true)
             false (Scenario.fresh Unreadable false)).
    reflexivity.
Defined.

(** X5. What one call of [ensureAuth] does to the outside, in any
    environment: it returns after a single probe (not forced), or after a
    browser login followed by the writing of cookies.json, with at most one
    probe before the login and none when forced; or it throws after a
    browser login, with the write of cookies.json attempted or not.
    Nothing else is touched: no listing, no upload, no deletion. *)
Theorem ensureAuth_trace_shape (E : Env) (force : bool) (w : World) :
  (snd (ensureAuth E force w) = Ok tt
   /\ ((force = false /\ added w (fst (ensureAuth E force w)) [Probes])
       \/ added w (fst (ensureAuth E force w)) [Logins; CookieWrites]
       \/ (force = false
           /\ added w (fst (ensureAuth E force w))
                [Probes; Logins; CookieWrites])))
  \/
  (exists e,
     snd (ensureAuth E force w) = Exc e
     /\ (added w (fst (ensureAuth E force w)) [Logins]
         \/ added w (fst (ensureAuth E force w)) [Logins; CookieWrites]
         \/ (force = false
             /\ (added w (fst (ensureAuth E force w)) [Probes; Logins]
                 \/ added w (fst (ensureAuth E force w))
                      [Probes; Logins; CookieWrites])))).
Proof.
  destruct (ensureAuth_paths E force w)
    as [(Hf & Hr & Ha & _)|(w0 & before & Hl & Hb & Hcase)].
  - left. split; [exact Hr|]. left. now split.
  - rewrite Hl.
    destruct (login_shape E w0)
      as [(Hr & Ha & _)|[(e & Hr & Ha & _)|(e & Hr & Ha & _)]].
    + left. split; [exact Hr|].
      destruct Hcase as [->|[Hf ->]].
      * right. left. exact (added_then _ _ _ _ _ Hb Ha).
      * right. right. split; [exact Hf|].
        exact (added_then _ _ _ _ _ Hb Ha).
    + right. exists e. split; [exact Hr|].
      destruct Hcase as [->|[Hf ->]].
      * left. exact (added_then _ _ _ _ _ Hb Ha).
      * right. right. split; [exact Hf|]. left.
        exact (added_then _ _ _ _ _ Hb Ha).
    + right. exists e. split; [exact Hr|].
      destruct Hcase as [->|[Hf ->]].
      * right. left. exact (added_then _ _ _ _ _ Hb Ha).
      * right. right. split; [exact Hf|]. right.
        exact (added_then _ _ _ _ _ Hb Ha).
Qed.

(** X6. How a login fails.  When the browser session does not get to the
    home page, or no tokens derive from its cookies, nothing is written:
    cookies.json and [xsrfToken] are as before, and the browser login is
    the only event.  Any other failure is that of the write of cookies.json
    or of [browser.close()]: the write was attempted, and [cookie] and
    [xsrfToken] are already those of the new cookies. *)
Theorem failed_login_outcomes (E : Env) (w w' : World) (e : Exn) :
  performLoginWithPuppeteer E w = (w', Exc e) ->
  (added w w' [Logins]
   /\ cookies_file w' = cookies_file w
   /\ xsrfToken w' = xsrfToken w
   /\ (browser_login E (count Logins (trace w)) = None
       \/ exists cookies w1 e1,
            browser_login E (count Logins (trace w)) = Some cookies
            /\ extractTokensFromCookies cookies (record BrowserLogin w)
               = (w1, Exc e1)))
  \/
  (added w w' [Logins; CookieWrites]
   /\ (e = BrowserError \/ exists code, e = FsError code)
   /\ exists cookies,
        browser_login E (count Logins (trace w)) = Some cookies
        /\ derived_from cookies w'
        /\ last_written cookies w').
Proof.
  intros H.
  destruct (login_shape E w)
    as [(Hr & _)|[(e' & Hr & Ha & Hf & Hx & Hwhy)|(e' & Hr & Ha & He & Hc)]];
    rewrite H in *; cbn [fst snd] in *; [discriminate| |].
  - left. auto.
  - right. injection Hr as ->. auto.
Qed.

Lemma failed_login_outcomes_witness :
  ((added (mkWorld [] (lit "old") (Parses (JArr Scenario.session)) false [])
          (mkWorld (lit "session=xyz") (lit "old")
                   (Parses (JArr Scenario.session)) false [BrowserLogin])
          [Logins]
    /\ cookies_file
         (mkWorld (lit "session=xyz") (lit "old")
                  (Parses (JArr Scenario.session)) false [BrowserLogin])
       = cookies_file
           (mkWorld [] (lit "old") (Parses (JArr Scenario.session)) false [])
    /\ xsrfToken
         (mkWorld (lit "session=xyz") (lit "old")
                  (Parses (JArr Scenario.session)) false [BrowserLogin])
       = xsrfToken
           (mkWorld [] (lit "old") (Parses (JArr Scenario.session)) false [])
    /\ (browser_login
          (Cases.login_with (Some Scenario.no_token) (Written true) true)
          (count Logins
             (trace (mkWorld [] (lit "old") (Parses (JArr Scenario.session))
                       false [])))
        = None
        \/ exists cookies w1 e1,
             browser_login
               (Cases.login_with (Some Scenario.no_token) (Written true) true)
               (count Logins
                  (trace (mkWorld [] (lit "old")
                            (Parses (JArr Scenario.session)) false [])))
             = Some cookies
             /\ extractTokensFromCookies cookies
                  (record BrowserLogin
                     (mkWorld [] (lit "old")
                        (Parses (JArr Scenario.session)) false []))
                = (w1, Exc e1)))
   \/
   (added (mkWorld [] (lit "old") (Parses (JArr Scenario.session)) false [])
          (mkWorld (lit "session=xyz") (lit "old")
                   (Parses (JArr Scenario.session)) false [BrowserLogin])
          [Logins; CookieWrites]
    /\ (SessionError = BrowserError
        \/ exists code, SessionError = FsError code)
    /\ exists cookies,
         browser_login
           (Cases.login_with (Some Scenario.no_token) (Written true) true)
           (count Logins
              (trace (mkWorld [] (lit "old") (Parses (JArr Scenario.session))
                        false [])))
         = Some cookies
         /\ derived_from cookies
              (mkWorld (lit "session=xyz") (lit "old")
                 (Parses (JArr Scenario.session)) false [BrowserLogin])
         /\ last_written cookies
              (mkWorld (lit "session=xyz") (lit "old")
                 (Parses (JArr Scenario.session)) false [BrowserLogin])))
  /\
  (added (mkWorld [] (lit "old") Missing false [])
         (mkWorld (lit "XSRF-TOKEN=abc; session=xyz") (lit "abc")
                  (Parses (JArr Scenario.session)) false
                  [BrowserLogin; WriteCookies Scenario.session])
         [Logins; CookieWrites]
   /\ (BrowserError = BrowserError
       \/ exists code, BrowserError = FsError code)
   /\ exists cookies,
        browser_login
          (Cases.login_with (Some Scenario.session) (Written true) false)
          (count Logins (trace (mkWorld [] (lit "old") Missing false [])))
        = Some cookies
        /\ derived_from cookies
             (mkWorld (lit "XSRF-TOKEN=abc; session=xyz") (lit "abc")
                (Parses (JArr Scenario.session)) false
                [BrowserLogin; WriteCookies Scenario.session])
        /\ last_written cookies
             (mkWorld (lit "XSRF-TOKEN=abc; session=xyz") (lit "abc")
                (Parses (JArr Scenario.session)) false
                [BrowserLogin; WriteCookies Scenario.session])).
Proof.
  split.
  - apply (failed_login_outcomes
             (Cases.login_with (Some Scenario.no_token) (Written true) true)
             (mkWorld [] (lit "old") (Parses (JArr Scenario.session)) false [])
             _ SessionError).
    reflexivity.
  - destruct (failed_login_outcomes
                (Cases.login_with (Some Scenario.session) (Written true) false)
                (mkWorld [] (lit "old") Missing false [])
                (mkWorld (lit "XSRF-TOKEN=abc; session=xyz") (lit "abc")
                   (Parses (JArr Scenario.session)) false
                   [BrowserLogin; WriteCookies Scenario.session])
                BrowserError eq_refl) as [((t & Ht & Hk) & _)|H].
    + simpl in Ht. subst t. discriminate.
    + exact H.
Defined.

(** X7. With no usable snapshot (cookies.json missing, unreadable, not
    JSON, or not an array) [ensureAuth()] does exactly what
    [ensureAuth(true)] does: no derivation, no probe, straight to the
    browser login. *)
Theorem ensureAuth_without_snapshot (E : Env) (w : World) :
  (forall items, cookies_file w <> Parses (JArr items)) ->
  ensureAuth E false w = ensureAuth E true w.
Proof.
  intros H. rewrite ensureAuth_forced. now apply ensureAuth_no_snapshot.
Qed.

Lemma ensureAuth_without_snapshot_witness :
  ensureAuth Scenario.calm false
    (Scenario.fresh (Parses (JObj [(lit "cookies", JArr Scenario.session)]))
       false)
  = ensureAuth Scenario.calm true
      (Scenario.fresh (Parses (JObj [(lit "cookies", JArr Scenario.session)]))
         false).
Proof.
  apply (ensureAuth_without_snapshot Scenario.calm).
  intros items. discriminate.
Defined.

(* ================================================================= *)
(** ** Further properties: listThemes *)

Section ListFacts.

Variable E : Env.
Variable show : JSON -> Try unit.

Lemma themes_request w :
  axios_get_themes E w =
    (record (GetThemes (xsrfToken w) (cookie w)) w,
     match themes_answer E (count Listings (trace w)) with
     | Responded status data =>
         if (200 <=? status)%Z && (status <? 300)%Z then Ok data
         else Exc (AxiosError (Some (status, data)))
     | NoResponse => Exc (AxiosError None)
     end).
Proof.
  unfold axios_get_themes, bind, get, emit, modify.
  destruct (themes_answer E (count Listings (trace w))) as [status data|];
    [|reflexivity].
  destruct ((200 <=? status)%Z && (status <? 300)%Z); reflexivity.
Qed.

(** [listThemes] once [ensureAuth()] has returned. *)
Lemma listThemes_authenticated w w1 :
  ensureAuth E false w = (w1, Ok tt) ->
  listThemes_with E show w =
    (record (GetThemes (xsrfToken w1) (cookie w1)) w1,
     Ok match accepted_body (themes_answer E (count Listings (trace w1))) with
        | Some data =>
            match themes_of data with
            | Some items =>
                match Array_forEach show items with
                | Returns _ => items
                | Throws _ => []
                end
            | None => []
            end
        | None => []
        end).
Proof.
  intros Ha. unfold listThemes_with. unfold bind at 1. unfold try_catch.
  rewrite (bind_ok _ Ha). unfold bind at 1. rewrite themes_request.
  unfold accepted_body.
  destruct (themes_answer E (count Listings (trace w1))) as [status data|];
    [|reflexivity].
  destruct ((200 <=? status)%Z && (status <? 300)%Z); [|reflexivity].
  unfold themes_of.
  destruct (truthy (Some data)) eqn:Ht; [|reflexivity].
  destruct (Get (Some data) (lit "data")) as [themes|e] eqn:Hg;
    [|reflexivity].
  unfold pure at 1, bind at 1.
  destruct themes as [[| | | |items|]|]; cbn [truthy];
    try reflexivity;
    try (match goal with |- context [if ?b then _ else _] =>
           destruct b; reflexivity end).
Qed.

(** [listThemes] when [ensureAuth()] throws. *)
Lemma listThemes_unauthenticated w w1 e :
  ensureAuth E false w = (w1, Exc e) ->
  listThemes_with E show w = (w1, Ok []).
Proof.
  intros Ha. unfold listThemes_with. unfold bind at 1. unfold try_catch.
  unfold bind at 1. rewrite Ha. reflexivity.
Qed.

End ListFacts.

(** X8. [listThemes], of either script, never throws: whatever the
    environment does it returns a list, and the only things it does to the
    outside are those of one [ensureAuth()] and at most one listing
    request: it uploads nothing, deletes nothing and does not run the
    archiver. *)
Theorem listThemes_never_throws (E : Env) (show : JSON -> Try unit)
    (w : World) :
  (exists themes, snd (listThemes_with E show w) = Ok themes)
  /\ count Listings (trace (fst (listThemes_with E show w)))
     <= S (count Listings (trace w))
  /\ count Uploads (trace (fst (listThemes_with E show w)))
     = count Uploads (trace w)
  /\ count CookieUnlinks (trace (fst (listThemes_with E show w)))
     = count CookieUnlinks (trace w)
  /\ count ZipUnlinks (trace (fst (listThemes_with E show w)))
     = count ZipUnlinks (trace w)
  /\ count ArchiverRuns (trace (fst (listThemes_with E show w)))
     = count ArchiverRuns (trace w).
Proof.
  split; [apply listThemes_returns|]. split.
  - pose proof (ensureAuth_keeps_count E Listings false eq_refl eq_refl eq_refl w)
      as K. cbv beta in K.
    destruct (ensureAuth E false w) as [w1 r] eqn:Ha.
    pose proof (ensureAuth_settles E false w) as Hs. rewrite Ha in Hs.
    destruct r as [[]|e|c|]; simpl in Hs, K; try contradiction.
    + rewrite (listThemes_authenticated E show w w1 Ha). cbn [fst].
      rewrite count_record, K. simpl. lia.
    + rewrite (listThemes_unauthenticated E show w w1 e Ha). cbn [fst]. lia.
  - repeat split;
      apply (listThemes_keeps_count E show); reflexivity.
Qed.

(** X9. What [listThemes] returns once [ensureAuth()] has returned.  It
    sends one listing request with the tokens in memory, and returns the
    array at [data.data] of a 2xx answer when every entry can be shown; it
    returns the empty list when axios throws (another status, no response),
    when the body has no array at [data.data], and also when showing one
    entry throws (a null entry, say), although the array was received. *)
Theorem listThemes_result (E : Env) (show : JSON -> Try unit)
    (w w1 : World) :
  ensureAuth E false w = (w1, Ok tt) ->
  fst (listThemes_with E show w)
  = record (GetThemes (xsrfToken w1) (cookie w1)) w1
  /\
  (accepted_body (themes_answer E (count Listings (trace w1))) = None ->
   snd (listThemes_with E show w) = Ok [])
  /\
  (forall data,
     accepted_body (themes_answer E (count Listings (trace w1))) = Some data ->
     (themes_of data = None -> snd (listThemes_with E show w) = Ok [])
     /\
     (forall items,
        themes_of data = Some items ->
        (Array_forEach show items = Returns tt ->
         snd (listThemes_with E show w) = Ok items)
        /\
        (forall e, Array_forEach show items = Throws e ->
         snd (listThemes_with E show w) = Ok []))).
Proof.
  intros Ha. rewrite (listThemes_authenticated E show w w1 Ha). cbn [fst snd].
  split; [reflexivity|]. split.
  - intros ->. reflexivity.
  - intros data ->. split.
    + intros ->. reflexivity.
    + intros items ->. split.
      * intros ->. reflexivity.
      * intros e ->. reflexivity.
Qed.

Lemma listThemes_result_witness :
  snd (Sync.listThemes
         (Cases.listing
            (Responded 200 (JObj [(lit "data", JArr Cases.two_themes)])))
         (Cases.start false))
  = Ok Cases.two_themes
  /\
  snd (Sync.listThemes
         (Cases.listing
            (Responded 200
               (JObj [(lit "data",
                       JArr [Cases.theme "8f1c" "vineta"; JNull])])))
         (Cases.start false))
  = Ok []
  /\
  snd (Sync.listThemes (Cases.listing (Responded 404 JNull))
         (Cases.start false))
  = Ok [].
Proof.
  split; [|split].
  - destruct (listThemes_result
                (Cases.listing
                   (Responded 200 (JObj [(lit "data", JArr Cases.two_themes)])))
                Sync.show_theme (Cases.start false)
                (Cases.authenticated false) eq_refl) as (_ & _ & H).
    destruct (H (JObj [(lit "data", JArr Cases.two_themes)]) eq_refl)
      as (_ & H2).
    destruct (H2 Cases.two_themes eq_refl) as (H3 & _).
    exact (H3 eq_refl).
  - destruct (listThemes_result
                (Cases.listing
                   (Responded 200
                      (JObj [(lit "data",
                              JArr [Cases.theme "8f1c" "vineta"; JNull])])))
                Sync.show_theme (Cases.start false)
                (Cases.authenticated false) eq_refl) as (_ & _ & H).
    destruct (H (JObj [(lit "data",
                        JArr [Cases.theme "8f1c" "vineta"; JNull])]) eq_refl)
      as (_ & H2).
    destruct (H2 [Cases.theme "8f1c" "vineta"; JNull] eq_refl) as (_ & H3).
    exact (H3 TypeError eq_refl).
  - destruct (listThemes_result (Cases.listing (Responded 404 JNull))
                Sync.show_theme (Cases.start false)
                (Cases.authenticated false) eq_refl) as (_ & H & _).
    exact (H eq_refl).
Defined.

(* ================================================================= *)
(** ** Further properties: uploadTheme *)

(** X10. An upload that axios rejects with status 401: cookies.json is not
    deleted; [uploadTheme] calls [ensureAuth(true)] in its catch clause and
    then itself.  An error of that forced login is not caught: the promise
    of [uploadTheme] rejects with it. *)
Theorem expired_session_relogin (E : Env) (fuel : nat) (w w1 : World)
    (e : Exn) :
  (ensureAuth E false ;; emit (Sleep 500) ;; Sync.zipTheme E ;;
   Sync.axios_post_update E) w = (w1, Exc e) ->
  Sync.is_401 e = true ->
  Sync.uploadTheme E (S fuel) w
  = (ensureAuth E true ;; Sync.uploadTheme E fuel) w1
  /\
  (forall w2 e2,
     ensureAuth E true w1 = (w2, Exc e2) ->
     Sync.uploadTheme E (S fuel) w = (w2, Exc e2)).
Proof.
  intros Hreq H401.
  assert (Heq : Sync.uploadTheme E (S fuel) w
                = (ensureAuth E true ;; Sync.uploadTheme E fuel) w1).
  { cbn [Sync.uploadTheme]. unfold bind at 1.
    unfold Sync.uploadTheme_body, try_catch.
    rewrite (request_throws E _ w w1 e Hreq), H401.
    unfold bind, ret.
    destruct (ensureAuth E true w1) as [w2 [[]|e2|c|]]; reflexivity. }
  split; [exact Heq|].
  intros w2 e2 H. rewrite Heq. exact (bind_exc _ H).
Qed.

Lemma expired_session_relogin_witness :
  Sync.uploadTheme (Cases.first_upload (Responded 401 JNull)
                      (Some Scenario.session)) 2 (Cases.start false)
  = (ensureAuth (Cases.first_upload (Responded 401 JNull)
                   (Some Scenario.session)) true ;;
     Sync.uploadTheme (Cases.first_upload (Responded 401 JNull)
                         (Some Scenario.session)) 1) Cases.requested
  /\
  Sync.uploadTheme (Cases.first_upload (Responded 401 JNull) None) 2
    (Cases.start false)
  = (record BrowserLogin Cases.requested, Exc BrowserError).
Proof.
  split.
  - apply (expired_session_relogin
             (Cases.first_upload (Responded 401 JNull) (Some Scenario.session))
             1 (Cases.start false) Cases.requested
             (AxiosError (Some (401%Z, JNull)))); reflexivity.
  - destruct (expired_session_relogin
                (Cases.first_upload (Responded 401 JNull) None)
                1 (Cases.start false) Cases.requested
                (AxiosError (Some (401%Z, JNull))) eq_refl eq_refl)
      as [_ H].
    apply H. reflexivity.
Defined.

(** X11. Any other error thrown before an answer arrives (the browser
    login of [ensureAuth()], the deletion of the locked archive, the
    archiver, a request without response or with a status that is neither
    2xx nor 401) ends the cycle where it was thrown: [uploadTheme] returns,
    with no retry, no login and no deletion of cookies.json. *)
Theorem other_errors_end_the_cycle (E : Env) (fuel : nat) (w w1 : World)
    (e : Exn) :
  (ensureAuth E false ;; emit (Sleep 500) ;; Sync.zipTheme E ;;
   Sync.axios_post_update E) w = (w1, Exc e) ->
  Sync.is_401 e = false ->
  Sync.uploadTheme E (S fuel) w = (w1, Ok tt).
Proof.
  intros Hreq H401. cbn [Sync.uploadTheme]. unfold bind at 1.
  unfold Sync.uploadTheme_body, try_catch.
  rewrite (request_throws E _ w w1 e Hreq), H401. reflexivity.
Qed.

Lemma other_errors_end_the_cycle_witness :
  Sync.uploadTheme
    (Cases.uploading (Responded 200 Scenario.ok_body) (Some Scenario.session)
                     Unlinked false)
    3 (Cases.start false)
  = (extend [Sleep 500; RunArchiver] (Cases.authenticated false), Ok tt)
  /\
  Sync.uploadTheme
    (Cases.uploading (Responded 503 JNull) (Some Scenario.session)
                     Unlinked true)
    3 (Cases.start false)
  = (Cases.requested, Ok tt).
Proof.
  split.
  - apply (other_errors_end_the_cycle
             (Cases.uploading (Responded 200 Scenario.ok_body)
                (Some Scenario.session) Unlinked false)
             2 (Cases.start false) _ ExecError); reflexivity.
  - apply (other_errors_end_the_cycle
             (Cases.uploading (Responded 503 JNull) (Some Scenario.session)
                Unlinked true)
             2 (Cases.start false) _ (AxiosError (Some (503%Z, JNull))));
      reflexivity.
Defined.

(** X12. A failure whose message is truthy but neither a string nor an
    array (a number, say) has no [includes] method: line 264 throws a
    TypeError, the catch clause logs it, and the cycle ends after the one
    upload, with cookies.json kept and no login. *)
Theorem unsearchable_message_ends_the_cycle (E : Env) (fuel : nat)
    (w w1 : World) (data : JSON) (message : Value) (e : Exn) :
  (ensureAuth E false ;; emit (Sleep 500) ;; Sync.zipTheme E ;;
   Sync.axios_post_update E) w = (w1, Ok data) ->
  Sync.upload_succeeded data = Returns false ->
  Sync.error_message data = Returns message ->
  Sync.theme_not_found message = Throws e ->
  Sync.uploadTheme E (S fuel) w = (w1, Ok tt).
Proof.
  intros Hreq Hs Hm Hn. cbn [Sync.uploadTheme]. unfold bind at 1.
  unfold Sync.uploadTheme_body, try_catch.
  rewrite (request_then E _ w w1 data Hreq), Hs.
  unfold pure at 1, bind at 1. rewrite Hm. unfold pure at 1, bind at 1.
  rewrite Hn. unfold pure, bind.
  assert (He : e = TypeError).
  { unfold Sync.theme_not_found in Hn.
    destruct (truthy message); [|discriminate].
    destruct message as [[]|]; simpl in Hn; try discriminate;
      now injection Hn. }
  subst e. reflexivity.
Qed.

Lemma unsearchable_message_ends_the_cycle_witness :
  Sync.uploadTheme
    (Cases.uploading
       (Responded 200 (JObj [(lit "status", JStr (lit "fail"));
                             (lit "message", JNum (lit "422"))]))
       (Some Scenario.session) Unlinked true)
    3 (Cases.start false)
  = (Cases.requested, Ok tt).
Proof.
  apply (unsearchable_message_ends_the_cycle
           (Cases.uploading
              (Responded 200 (JObj [(lit "status", JStr (lit "fail"));
                                    (lit "message", JNum (lit "422"))]))
              (Some Scenario.session) Unlinked true)
           2 (Cases.start false) Cases.requested
           (JObj [(lit "status", JStr (lit "fail"));
                  (lit "message", JNum (lit "422"))])
           (Some (JNum (lit "422"))) TypeError); reflexivity.
Defined.

(** X13. A 2xx answer whose [status] is the string "success" ends
    [uploadTheme] at the answer: nothing is done after the upload. *)
Theorem accepted_upload_returns (E : Env) (fuel : nat) (w w1 : World)
    (data : JSON) :
  (ensureAuth E false ;; emit (Sleep 500) ;; Sync.zipTheme E ;;
   Sync.axios_post_update E) w = (w1, Ok data) ->
  Sync.upload_succeeded data = Returns true ->
  Sync.uploadTheme E (S fuel) w = (w1, Ok tt).
Proof.
  intros Hreq Hs. cbn [Sync.uploadTheme].
  now rewrite (bind_ok _ (body_accepted E w w1 data Hreq Hs)).
Qed.

Lemma accepted_upload_returns_witness :
  Sync.uploadTheme Scenario.calm 1 (Cases.start false)
  = (Cases.requested, Ok tt).
Proof.
  apply (accepted_upload_returns Scenario.calm 0 (Cases.start false)
           Cases.requested Scenario.ok_body); reflexivity.
Defined.

Lemma never_401_pure {A} (r : Try A) :
  (forall e, r = Throws e -> e = TypeError) -> never_401 (pure r).
Proof.
  intros H w w' e. unfold pure. destruct r as [a|e0]; [discriminate|].
  intros K. injection K as _ <-. now rewrite (H e0 eq_refl).
Qed.

Lemma upload_succeeded_throws data e :
  Sync.upload_succeeded data = Throws e -> e = TypeError.
Proof.
  unfold Sync.upload_succeeded. destruct (truthy (Some data)); [|discriminate].
  destruct (Get (Some data) (lit "status")) as [s|e1] eqn:H; cbn [bindT];
    [discriminate|].
  intros K. injection K as <-. exact (Get_throws _ _ _ H).
Qed.

Lemma error_message_throws data e :
  Sync.error_message data = Throws e -> e = TypeError.
Proof.
  unfold Sync.error_message.
  destruct (GetOpt (Some data) (lit "message")) as [s|e1] eqn:H; cbn [bindT];
    [discriminate|].
  intros K. injection K as <-.
  destruct data; simpl in H; try discriminate.
Qed.

Lemma theme_not_found_throws message e :
  Sync.theme_not_found message = Throws e -> e = TypeError.
Proof.
  unfold Sync.theme_not_found. destruct (truthy message); [|discriminate].
  destruct message as [[]|]; simpl; try discriminate; intros H;
    now injection H.
Qed.

Section UploadCount.

Variable E : Env.

Lemma never_401_listThemes : never_401 (Sync.listThemes E).
Proof.
  intros w w' e H. destruct (listThemes_returns E Sync.show_theme w) as [t K].
  unfold Sync.listThemes in H. rewrite H in K. discriminate.
Qed.




Lemma never_401_answered data : never_401 (after_answer E data).
Proof.
  unfold after_answer.
  apply never_401_bind;
    [apply never_401_pure, upload_succeeded_throws|intros success].
  destruct success; [apply never_401_ret|].
  apply never_401_bind;
    [apply never_401_pure, error_message_throws|intros message].
  apply never_401_bind;
    [apply never_401_pure, theme_not_found_throws|intros not_found].
  destruct not_found.
  - apply never_401_bind; [apply never_401_listThemes|intros _].
    apply never_401_ret.
  - apply never_401_bind; [apply never_401_get|intros present].
    apply never_401_bind.
    + destruct present; [|apply never_401_ret].
      unfold Sync.unlinkSync_cookies.
      apply never_401_bind; [apply never_401_get|intros k].
      apply never_401_bind; [apply never_401_modify|intros _].
      destruct (cookies_unlink E k); [apply never_401_modify|].
      now apply never_401_throw.
    + intros _. apply never_401_bind; [apply never_401_ensureAuth|intros _].
      apply never_401_ret.
Qed.





End UploadCount.


(* ================================================================= *)
(** ** More on the packager *)

Section PackagerFacts.

Variable E : Env.

(** The deletion loop in any environment: some attempts that found the
    archive locked, each followed by its wait, then one attempt that
    deleted it or whose error is thrown. *)
Lemma unlink_loop_shape : forall retries w,
  0 < retries ->
  exists n, n < retries /\
    (Sync.unlink_loop E retries w
       = (set_zip_exists false (extend (attempts n ++ [UnlinkZip]) w), Ok tt)
     \/ exists code,
          Sync.unlink_loop E retries w
            = (extend (attempts n ++ [UnlinkZip]) w, Exc (FsError code))
          /\ (S n < retries -> str_eqb code EBUSY = false)).
Proof.
  induction retries as [|r IH]; intros w Hpos; [lia|].
  cbn [Sync.unlink_loop]. unfold try_catch. rewrite unlinkSync_zip_result.
  destruct (zip_unlink E (count ZipUnlinks (trace w))) as [|code].
  - exists 0. split; [lia|]. now left.
  - cbn [Sync.is_EBUSY]. fold EBUSY.
    destruct (str_eqb code EBUSY) eqn:Hcode;
      [destruct (Nat.ltb 1 (S r)) eqn:Hlt|]; cbn [andb].
    + apply Nat.ltb_lt in Hlt.
      destruct (IH (extend [UnlinkZip; Sleep 1000] w) ltac:(lia))
        as (n & Hn & Hloop).
      exists (S n). split; [lia|].
      unfold bind, emit, modify.
      change (record (Sleep 1000) (extend [UnlinkZip] w))
        with (extend [Sleep 1000] (extend [UnlinkZip] w)).
      rewrite extend_extend. cbn [app].
      rewrite attempts_S, <- app_assoc, <- extend_extend.
      destruct Hloop as [->|(code' & -> & Hc)]; [now left|right].
      exists code'. split; [reflexivity|]. intros H. apply Hc. lia.
    + apply Nat.ltb_ge in Hlt.
      exists 0. split; [lia|]. right. exists code.
      split; [reflexivity|]. intros H. lia.
    + exists 0. split; [lia|]. right. exists code.
      split; [reflexivity|]. intros _. exact Hcode.
Qed.

Lemma execPromise_zip_result w :
  Sync.execPromise_zip E w =
    if archiver E (count ArchiverRuns (trace w))
    then (set_zip_exists true (extend [RunArchiver] w), Ok tt)
    else (extend [RunArchiver] w, Exc ExecError).
Proof.
  unfold Sync.execPromise_zip, bind, get, emit, modify. cbv beta.
  destruct (archiver E (count ArchiverRuns (trace w))); reflexivity.
Qed.

End PackagerFacts.

(** X15. [zipTheme] in any environment.  It makes at most five attempts to
    delete an archive that is there, with a wait of 1000 ms between two
    attempts, and none when there is no archive; then the archiver runs
    once and the archive exists, or the archiver fails and its error is
    thrown.  An error of a deletion is thrown without running the
    archiver; before the fifth attempt only an error other than EBUSY is. *)
Theorem zipTheme_outcomes (E : Env) (w : World) :
  exists n, n < 5 /\
    let deletions :=
      if zip_exists w then attempts n ++ [UnlinkZip] else [] in
    (Sync.zipTheme E w
       = (set_zip_exists true (extend (deletions ++ [RunArchiver]) w), Ok tt)
     \/ Sync.zipTheme E w
       = (set_zip_exists false (extend (deletions ++ [RunArchiver]) w),
          Exc ExecError)
     \/ (zip_exists w = true /\
         exists code,
           Sync.zipTheme E w = (extend deletions w, Exc (FsError code))
           /\ (n < 4 -> str_eqb code EBUSY = false))).
Proof.
  destruct (zip_exists w) eqn:Hz.
  - rewrite (zipTheme_present E w Hz).
    destruct (unlink_loop_shape E 5 w ltac:(lia))
      as (n & Hn & [Hloop|(code & Hloop & Hc)]); exists n; (split; [lia|]);
      cbv zeta; rewrite Hloop.
    + rewrite execPromise_zip_result.
      destruct (archiver E _); [left|right; left];
        unfold set_zip_exists, extend; cbn [cookie xsrfToken cookies_file
          zip_exists trace]; now rewrite <- app_assoc.
    + right; right. split; [reflexivity|]. exists code.
      split; [reflexivity|]. intros H. apply Hc. lia.
  - exists 0. split; [lia|]. cbv zeta. cbn [app].
    assert (Heq : Sync.zipTheme E w = Sync.execPromise_zip E w).
    { unfold Sync.zipTheme. unfold bind at 1. unfold get. now rewrite Hz. }
    rewrite Heq, execPromise_zip_result.
    destruct (archiver E _); [now left|right; left].
    unfold set_zip_exists, extend. cbn [cookie xsrfToken cookies_file
      zip_exists trace]. now rewrite <- Hz.
Qed.

(** X16. After [n] locked attempts (n below 5), a deletion that fails with
    a code other than EBUSY is not retried: [zipTheme] throws that error at
    once, with no further wait, and the archiver does not run. *)
Theorem other_unlink_error_is_thrown (E : Env) (w : World) (n : nat)
    (code : jsstring) :
  zip_exists w = true ->
  n < 5 ->
  (forall i, i < n ->
     zip_unlink E (count ZipUnlinks (trace w) + i) = UnlinkFails EBUSY) ->
  zip_unlink E (count ZipUnlinks (trace w) + n) = UnlinkFails code ->
  str_eqb code EBUSY = false ->
  Sync.zipTheme E w
  = (extend (attempts n ++ [UnlinkZip]) w, Exc (FsError code)).
Proof.
  intros Hz Hn Hbusy Hfail Hcode.
  rewrite (zipTheme_present E w Hz).
  rewrite (unlink_loop_busy E n 5 w Hn Hbusy).
  destruct (5 - n) as [|r] eqn:Hr; [lia|].
  cbn [Sync.unlink_loop]. unfold try_catch. rewrite unlinkSync_zip_result.
  rewrite count_extend, count_attempts, Hfail.
  cbn [Sync.is_EBUSY]. fold EBUSY. rewrite Hcode. cbn [andb].
  unfold throw. now rewrite extend_extend.
Qed.

Lemma other_unlink_error_is_thrown_witness :
  Sync.zipTheme
    (Cases.uploading (Responded 200 Scenario.ok_body) None
       (UnlinkFails (lit "EPERM")) true)
    (Scenario.fresh Missing true)
  = (extend [UnlinkZip] (Scenario.fresh Missing true),
     Exc (FsError (lit "EPERM"))).
Proof.
  apply (other_unlink_error_is_thrown
           (Cases.uploading (Responded 200 Scenario.ok_body) None
              (UnlinkFails (lit "EPERM")) true)
           (Scenario.fresh Missing true) 0 (lit "EPERM")).
  - reflexivity.
  - lia.
  - intros i Hi. lia.
  - reflexivity.
  - reflexivity.
Defined.

(* ================================================================= *)
(** ** More on the watcher *)

Module DebounceFacts.
Import Sync.

Lemma run_app es1 : forall es2 s,
  run s (es1 ++ es2) =
    match run s es1 with
    | Some s1 => run s1 es2
    | None => None
    end.
Proof.
  induction es1 as [|e es1 IH]; intros es2 s; [reflexivity|].
  cbn [app run]. destruct (turn s e); [apply IH|reflexivity].
Qed.

Lemma debounced_turn last s e s' :
  debounced last s -> turn s e = Some s' ->
  debounced (last_raw_from last [e]) s'.
Proof.
  intros Inv. destruct e as [at_ms|t|at_ms]; cbn [turn last_raw_from fold_left].
  - destruct (_ && _); [|discriminate]. intros H; injection H as <-.
    right. exists (next_timer s), at_ms. unfold on_all.
    cbn [armed uploadTimeout].
    destruct Inv as [Ha|(t & r & Ha & Ht & _)].
    + rewrite Ha. now destruct (uploadTimeout s).
    + rewrite Ha, Ht. unfold remove_timer. cbn [filter fst].
      now rewrite Nat.eqb_refl.
  - destruct Inv as [Ha|(t0 & r & Ha & Ht & Hl)];
      [rewrite Ha; discriminate|].
    rewrite Ha. cbn [due]. destruct (Nat.eqb_spec t0 t) as [->|_];
      [|discriminate].
    destruct (_ && _); [|discriminate]. intros H; injection H as <-.
    left. unfold on_timeout. rewrite Ha. unfold remove_timer.
    cbn [filter fst]. rewrite Nat.eqb_refl.
    now destruct (uploadInProgress s).
  - destruct (_ && _); [|discriminate]. intros H; injection H as <-.
    exact Inv.
Qed.

Lemma debounced_run es : forall last s s',
  debounced last s -> run s es = Some s' ->
  debounced (last_raw_from last es) s'.
Proof.
  induction es as [|e es IH]; cbn [run]; intros last s s' Inv H.
  - injection H as <-. exact Inv.
  - destruct (turn s e) as [s1|] eqn:Ht; [|discriminate].
    exact (IH _ _ _ (debounced_turn _ _ _ _ Inv Ht) H).
Qed.

Lemma remove_timer_length t l :
  List.length (remove_timer t l) <= List.length l.
Proof.
  unfold remove_timer. induction l as [|x l IH]; cbn [filter List.length];
    [lia|].
  destruct (negb _); cbn [List.length]; lia.
Qed.

Lemma remove_due_length t d l :
  due t l = Some d -> List.length (remove_timer t l) < List.length l.
Proof.
  unfold remove_timer.
  induction l as [|[t' d'] l IH]; cbn [due filter List.length fst];
    [discriminate|].
  destruct (Nat.eqb t' t); cbn [negb List.length].
  - intros _. pose proof (remove_timer_length t l) as H.
    unfold remove_timer in H. lia.
  - intros H. apply IH in H. lia.
Qed.

(** A cycle uses up a timer, and a timer is set by a raw event. *)
Lemma cycles_turn s e s' :
  turn s e = Some s' ->
  cycles s' + List.length (armed s')
    <= cycles s + List.length (armed s) + raw_events [e].
Proof.
  destruct e as [at_ms|t|at_ms]; cbn [turn].
  - destruct (_ && _); [|discriminate]. intros H; injection H as <-.
    unfold on_all. cbn [cycles armed]. rewrite length_app. cbn.
    destruct (uploadTimeout s) as [t|];
      [pose proof (remove_timer_length t (armed s))|]; lia.
  - destruct (due t (armed s)) as [d|] eqn:Hd; [|discriminate].
    destruct (_ && _); [|discriminate]. intros H; injection H as <-.
    apply remove_due_length in Hd. unfold on_timeout.
    destruct (uploadInProgress s); cbn [cycles armed]; cbn; lia.
  - destruct (_ && _); [|discriminate]. intros H; injection H as <-.
    cbn. lia.
Qed.

Lemma raw_events_cons e es :
  raw_events (e :: es) = raw_events [e] + raw_events es.
Proof. unfold raw_events. cbn [filter]. destruct (is_Raw e); reflexivity. Qed.

Lemma cycles_run es : forall s s',
  run s es = Some s' ->
  cycles s' + List.length (armed s')
    <= cycles s + List.length (armed s) + raw_events es.
Proof.
  induction es as [|e es IH]; cbn [run]; intros s s' H.
  - injection H as <-. cbn. lia.
  - destruct (turn s e) as [s1|] eqn:Ht; [|discriminate].
    apply cycles_turn in Ht. apply IH in H. rewrite raw_events_cons. lia.
Qed.

(** The flag is up from the start of a cycle to its settling. *)
Lemma flag_turn s e s' n :
  cycles s = n + (if uploadInProgress s then 1 else 0) ->
  turn s e = Some s' ->
  cycles s' = n + settlings [e] + (if uploadInProgress s' then 1 else 0).
Proof.
  intros Inv. destruct e as [at_ms|t|at_ms]; cbn [turn].
  - destruct (_ && _); [|discriminate]. intros H; injection H as <-.
    cbn. lia.
  - destruct (due t (armed s)) as [d|]; [|discriminate].
    destruct (_ && _); [|discriminate]. intros H; injection H as <-.
    unfold on_timeout.
    destruct (uploadInProgress s) eqn:Hf; cbn; rewrite ?Hf; lia.
  - destruct (uploadInProgress s) eqn:Hf;
      [|rewrite andb_false_r; discriminate].
    destruct (_ && _); [|discriminate]. intros H; injection H as <-.
    cbn. lia.
Qed.

Lemma settlings_cons e es :
  settlings (e :: es) = settlings [e] + settlings es.
Proof.
  unfold settlings. cbn [filter]. destruct (is_Settled e); reflexivity.
Qed.

Lemma flag_run es : forall s s' n,
  cycles s = n + (if uploadInProgress s then 1 else 0) ->
  run s es = Some s' ->
  cycles s' = n + settlings es + (if uploadInProgress s' then 1 else 0).
Proof.
  induction es as [|e es IH]; cbn [run]; intros s s' n Inv H.
  - injection H as <-. cbn. lia.
  - destruct (turn s e) as [s1|] eqn:Ht; [|discriminate].
    rewrite settlings_cons, Nat.add_assoc.
    exact (IH _ _ _ (flag_turn _ _ _ _ Inv Ht) H).
Qed.

(** A burst of raw events leaves the timer of the last one armed. *)
Lemma burst_run gaps : forall s first,
  (armed s = []
   \/ exists t d, armed s = [(t, d)] /\ uploadTimeout s = Some t
                  /\ first <= d) ->
  now s <= first ->
  Forall (fun g => g < 1000) gaps ->
  run s (map Raw (event_times first gaps)) =
    Some (mkWatch (first + list_sum gaps) (uploadInProgress s)
            (Some (next_timer s + List.length gaps))
            [(next_timer s + List.length gaps,
              first + list_sum gaps + 1000)]
            (next_timer s + S (List.length gaps)) (cycles s)).
Proof.
  induction gaps as [|g gaps IH]; intros s first Inv Hnow Hgaps.
  - cbn [event_times map run turn].
    replace (Nat.leb (now s) first) with true
      by (symmetry; apply Nat.leb_le; exact Hnow).
    assert (Hdue : none_overdue first (armed s) = true
                   /\ match uploadTimeout s with
                      | Some t => remove_timer t (armed s)
                      | None => armed s
                      end = []).
    { destruct Inv as [Ha|(t & d & Ha & Ht & Hd)]; rewrite Ha.
      - split; [reflexivity|]. now destruct (uploadTimeout s).
      - rewrite Ht. unfold none_overdue, remove_timer.
        cbn [forallb filter fst snd]. rewrite Nat.eqb_refl.
        split; [|reflexivity].
        rewrite andb_true_r. apply Nat.leb_le. exact Hd. }
    destruct Hdue as [H1 H2]. rewrite H1. cbn [andb]. unfold on_all.
    rewrite H2. cbn [app list_sum List.length fold_right].
    now rewrite !Nat.add_0_r, Nat.add_1_r.
  - inversion Hgaps as [|? ? Hg Hrest]; subst.
    cbn [event_times map run turn].
    replace (Nat.leb (now s) first) with true
      by (symmetry; apply Nat.leb_le; exact Hnow).
    assert (Hdue : none_overdue first (armed s) = true
                   /\ match uploadTimeout s with
                      | Some t => remove_timer t (armed s)
                      | None => armed s
                      end = []).
    { destruct Inv as [Ha|(t & d & Ha & Ht & Hd)]; rewrite Ha.
      - split; [reflexivity|]. now destruct (uploadTimeout s).
      - rewrite Ht. unfold none_overdue, remove_timer.
        cbn [forallb filter fst snd]. rewrite Nat.eqb_refl.
        split; [|reflexivity].
        rewrite andb_true_r. apply Nat.leb_le. exact Hd. }
    destruct Hdue as [H1 H2]. rewrite H1. cbn [andb]. unfold on_all.
    rewrite H2. cbn [app].
    change (match gaps with
            | [] => []
            | g0 :: rest => event_times (first + g + g0) rest
            end) with (tl (event_times (first + g) gaps)).
    change (Raw (first + g) :: map Raw (tl (event_times (first + g) gaps)))
      with (map Raw (event_times (first + g) gaps)).
    rewrite IH; cbn [now armed uploadTimeout next_timer uploadInProgress
                     cycles]; [| |lia|exact Hrest].
    + replace (first + list_sum (g :: gaps))
        with (first + g + list_sum gaps)
        by (unfold list_sum; cbn [fold_right]; lia).
      replace (next_timer s + List.length (g :: gaps))
        with (S (next_timer s) + List.length gaps)
        by (cbn [List.length]; lia).
      replace (next_timer s + S (List.length (g :: gaps)))
        with (S (next_timer s) + S (List.length gaps))
        by (cbn [List.length]; lia).
      reflexivity.
    + right. exists (next_timer s), (first + 1000).
      repeat split. lia.
Qed.

End DebounceFacts.

(** X17. The callback of a timer runs only when the timer is the one
    [uploadTimeout] holds, 1000 ms after the most recent raw event: a raw
    event cancels the timer of the one before it.  No timer is armed
    afterwards. *)
Theorem timer_fires_after_last_event (history : list Sync.Turn)
    (s s' : Sync.WatchState) (t : nat) :
  Sync.run Sync.watch_init history = Some s ->
  Sync.turn s (Sync.Fire t) = Some s' ->
  exists r,
    last_raw history = Some r
    /\ Sync.now s' = r + 1000
    /\ Sync.uploadTimeout s = Some t
    /\ Sync.armed s' = [].
Proof.
  intros Hreach Hfire.
  assert (Inv : debounced (last_raw history) s).
  { apply (DebounceFacts.debounced_run history None Sync.watch_init);
      [now left|exact Hreach]. }
  pose proof (DebounceFacts.debounced_turn _ _ _ _ Inv Hfire) as Inv'.
  cbn [Sync.turn] in Hfire.
  destruct Inv as [Ha|(t0 & r & Ha & Ht & Hl)];
    [rewrite Ha in Hfire; discriminate|].
  rewrite Ha in Hfire. cbn [Sync.due] in Hfire.
  destruct (Nat.eqb_spec t0 t) as [->|_]; [|discriminate].
  destruct (_ && _); [|discriminate]. injection Hfire as <-.
  exists r. unfold Sync.on_timeout. rewrite Ha. unfold Sync.remove_timer.
  cbn [filter fst]. rewrite Nat.eqb_refl.
  destruct (Sync.uploadInProgress s); cbn; auto.
Qed.

Lemma timer_fires_after_last_event_witness :
  exists r,
    last_raw [Sync.Raw 0; Sync.Raw 400; Sync.Raw 900] = Some r
    /\ Sync.now (Sync.mkWatch 1900 true (Some 2) [] 3 1) = r + 1000
    /\ Sync.uploadTimeout (Sync.mkWatch 900 false (Some 2) [(2, 1900)] 3 0)
       = Some 2
    /\ Sync.armed (Sync.mkWatch 1900 true (Some 2) [] 3 1) = [].
Proof.
  apply (timer_fires_after_last_event
           [Sync.Raw 0; Sync.Raw 400; Sync.Raw 900]
           (Sync.mkWatch 900 false (Some 2) [(2, 1900)] 3 0)
           (Sync.mkWatch 1900 true (Some 2) [] 3 1) 2); reflexivity.
Defined.

(** X18. The watcher starts no more upload cycles than it saw raw events:
    the cycles started and the timer still armed together never exceed the
    number of raw events. *)
Theorem cycles_bounded_by_events (history : list Sync.Turn)
    (s : Sync.WatchState) :
  Sync.run Sync.watch_init history = Some s ->
  Sync.cycles s + List.length (Sync.armed s) <= raw_events history.
Proof.
  intros H. apply DebounceFacts.cycles_run in H. cbn in H. lia.
Qed.

Lemma cycles_bounded_by_events_witness :
  Sync.cycles (Sync.mkWatch 1400 true (Some 1) [(1, 2400)] 2 1)
    + List.length (Sync.armed (Sync.mkWatch 1400 true (Some 1) [(1, 2400)] 2 1))
  <= raw_events [Sync.Raw 0; Sync.Fire 0; Sync.Raw 1400].
Proof.
  apply (cycles_bounded_by_events
           [Sync.Raw 0; Sync.Fire 0; Sync.Raw 1400]
           (Sync.mkWatch 1400 true (Some 1) [(1, 2400)] 2 1)).
  reflexivity.
Defined.

(** X19. The flag [uploadInProgress] keeps the cycles apart: the cycles
    started are those that have settled, and one more exactly when the
    flag is up.  Two calls of [uploadTheme] made by the watcher never
    overlap. *)
Theorem one_cycle_at_a_time (history : list Sync.Turn)
    (s : Sync.WatchState) :
  Sync.run Sync.watch_init history = Some s ->
  Sync.cycles s
  = settlings history + (if Sync.uploadInProgress s then 1 else 0).
Proof.
  intros H.
  exact (DebounceFacts.flag_run history Sync.watch_init s 0 eq_refl H).
Qed.

Lemma one_cycle_at_a_time_witness :
  Sync.cycles (Sync.mkWatch 3000 true (Some 1) [] 2 2)
  = settlings [Sync.Raw 0; Sync.Fire 0; Sync.Settled 1500; Sync.Raw 2000;
               Sync.Fire 1]
    + (if Sync.uploadInProgress (Sync.mkWatch 3000 true (Some 1) [] 2 2)
       then 1 else 0).
Proof.
  apply (one_cycle_at_a_time
           [Sync.Raw 0; Sync.Fire 0; Sync.Settled 1500; Sync.Raw 2000;
            Sync.Fire 1]
           (Sync.mkWatch 3000 true (Some 1) [] 2 2)).
  reflexivity.
Defined.

(** X20. Debouncing.  From a state with no timer armed and no upload in
    progress, a burst of raw events, each less than 1000 ms after the one
    before, starts one cycle: the timer of the last event fires 1000 ms
    after it, and the timers of the events before it never fire. *)
Theorem burst_starts_one_cycle (s : Sync.WatchState) (first : nat)
    (gaps : list nat) :
  Sync.armed s = [] ->
  Sync.uploadInProgress s = false ->
  Sync.now s <= first ->
  Forall (fun g => g < 1000) gaps ->
  Sync.run s (map Sync.Raw (event_times first gaps)
              ++ [Sync.Fire (Sync.next_timer s + List.length gaps)])
  = Some (Sync.mkWatch (first + list_sum gaps + 1000) true
            (Some (Sync.next_timer s + List.length gaps)) []
            (Sync.next_timer s + S (List.length gaps))
            (S (Sync.cycles s))).
Proof.
  intros Ha Hf Hnow Hgaps.
  rewrite DebounceFacts.run_app.
  rewrite (DebounceFacts.burst_run gaps s first (or_introl Ha) Hnow Hgaps).
  cbn [Sync.run Sync.turn Sync.armed Sync.due Sync.now].
  rewrite Nat.eqb_refl. unfold Sync.none_overdue. cbn [forallb snd].
  replace (Nat.leb (first + list_sum gaps) (first + list_sum gaps + 1000))
    with true by (symmetry; apply Nat.leb_le; lia).
  rewrite Nat.leb_refl. cbn [andb]. unfold Sync.on_timeout.
  cbn [Sync.uploadInProgress Sync.armed Sync.uploadTimeout Sync.next_timer
       Sync.cycles]. rewrite Hf. unfold Sync.remove_timer.
  cbn [filter fst]. now rewrite Nat.eqb_refl.
Qed.

Lemma burst_starts_one_cycle_witness :
  Sync.run Sync.watch_init
    [Sync.Raw 50; Sync.Raw 350; Sync.Raw 1250; Sync.Fire 2]
  = Some (Sync.mkWatch 2250 true (Some 2) [] 3 1).
Proof.
  apply (burst_starts_one_cycle Sync.watch_init 50 [300; 900]).
  - reflexivity.
  - reflexivity.
  - cbn. lia.
  - repeat constructor; lia.
Defined.

(* ================================================================= *)
(** ** The theme-not-found test *)

Lemma starts_with_prefix (p : jsstring) : forall s,
  starts_with p s = true <-> exists b, s = p ++ b.
Proof.
  induction p as [|x p IH]; intros s; cbn [starts_with app].
  - split; [intros _; now exists s|reflexivity].
  - destruct s as [|y s].
    + split; [discriminate|]. intros [b H]. discriminate.
    + rewrite andb_true_iff, N.eqb_eq, IH. split.
      * intros [-> [b ->]]. now exists b.
      * intros [b H]. injection H as -> ->. split; [reflexivity|now exists b].
Qed.

Lemma str_includes_substring (p : jsstring) : forall s,
  str_includes s p = true <-> exists a b, s = a ++ p ++ b.
Proof.
  induction s as [|y s IH]; cbn [str_includes].
  - rewrite orb_false_r, starts_with_prefix. split.
    + intros [b H]. now exists [], b.
    + intros (a & b & H). destruct a as [|z a]; [now exists b|discriminate].
  - rewrite orb_true_iff, starts_with_prefix, IH. split.
    + intros [[b H]|(a & b & H)].
      * now exists [], b.
      * exists (y :: a), b. now rewrite H.
    + intros (a & b & H). destruct a as [|z a].
      * left. now exists b.
      * right. injection H as _ ->. now exists a, b.
Qed.

(** X21. The test of index.js 264 on the message of a failed upload
    throws nothing when the message is a string, an array or falsy.  A
    string passes exactly when the marker occurs somewhere in it, an array
    exactly when one of its elements is the marker itself; a message that
    is falsy (the empty string, 0, false, null) does not pass. *)
Theorem theme_not_found_test (message : jsstring) (items : list JSON) :
  (exists found,
     Sync.theme_not_found (Some (JStr message)) = Returns found
     /\ (found = true
         <-> exists before after,
               message = before ++ THEME_NOT_FOUND ++ after))
  /\ (exists found,
        Sync.theme_not_found (Some (JArr items)) = Returns found
        /\ (found = true <-> In (JStr THEME_NOT_FOUND) items))
  /\ (forall v, truthy v = false ->
        Sync.theme_not_found v = Returns false).
Proof.
  split; [|split].
  - exists (str_includes message THEME_NOT_FOUND).
    split; [apply theme_not_found_string|apply str_includes_substring].
  - exists (existsb (fun x => is_string (Some x) THEME_NOT_FOUND) items).
    split; [reflexivity|]. rewrite existsb_exists. split.
    + intros (x & Hin & Hx). destruct x; try discriminate.
      cbn [is_string] in Hx. apply str_eqb_eq in Hx. now subst.
    + intros Hin. exists (JStr THEME_NOT_FOUND). split; [exact Hin|].
      cbn [is_string]. apply str_eqb_refl.
  - intros v Hv. unfold Sync.theme_not_found. now rewrite Hv.
Qed.

Lemma theme_not_found_test_witness :
  Sync.theme_not_found
    (Some (JStr (lit "422: " ++ THEME_NOT_FOUND ++ lit " (id 7)")))
  = Returns true
  /\ Sync.theme_not_found (Some (JArr [JNull; JStr THEME_NOT_FOUND]))
     = Returns true
  /\ Sync.theme_not_found (Some (JArr [JNull; JStr (lit "other")]))
     = Returns false
  /\ Sync.theme_not_found (Some (JStr (lit "other"))) = Returns false
  /\ Sync.theme_not_found (Some (JStr [])) = Returns false.
Proof.
  split; [|split; [|split; [|split]]].
  - destruct (theme_not_found_test
                (lit "422: " ++ THEME_NOT_FOUND ++ lit " (id 7)") [])
      as ((found & -> & Hs) & _).
    f_equal. apply Hs. exists (lit "422: "), (lit " (id 7)"). reflexivity.
  - destruct (theme_not_found_test [] [JNull; JStr THEME_NOT_FOUND])
      as (_ & (found & -> & Ha) & _).
    f_equal. apply Ha. right. left. reflexivity.
  - destruct (theme_not_found_test [] [JNull; JStr (lit "other")])
      as (_ & (found & -> & Ha) & _).
    f_equal. destruct found; [|reflexivity].
    destruct (proj1 Ha eq_refl) as [H|[H|[]]]; discriminate.
  - destruct (theme_not_found_test (lit "other") [])
      as ((found & -> & Hs) & _).
    f_equal. destruct found; [|reflexivity].
    destruct (proj1 Hs eq_refl) as (before & after & H).
    assert (Hlen : List.length (lit "other")
                   = List.length (before ++ THEME_NOT_FOUND ++ after))
      by (now rewrite <- H).
    rewrite !length_app in Hlen. cbn in Hlen. lia.
  - destruct (theme_not_found_test [] []) as (_ & _ & Hf).
    apply Hf. reflexivity.
Defined.
